(** * Sistema de Inventario: a shallow embedding of
    [src/tema_2/sistema_inventario.py] and the properties of its
    classes [Producto] and [Inventario].

    Python values are modelled by the type [value]; Python's [float] is the
    IEEE 754 binary64 format, taken from the Standard Library's executable
    specification [SpecFloat]; a [str] is a sequence of Unicode code
    points; objects of class [Producto] live in a heap and are passed by
    reference, so that a product found in the inventory and the product
    stored there are the same object. *)

From Stdlib Require Import ZArith NArith Lia String Ascii DecimalString.
From Stdlib Require Import Floats.SpecFloat.
From stdpp Require Import base option list.

Local Open Scope Z_scope.

(** ** Strings *)

(** A Python [str]: the sequence of its code points. *)
Definition str := list N.

(** The [str] of an ASCII literal of the source. *)
Definition lit (s : string) : str :=
  List.map N_of_ascii (list_ascii_of_string s).

(** [str.isspace] on one code point: the code points that [str.strip]
    removes (Unicode White_Space, and the separators FS, GS, RS, US). *)
Definition isspace (c : N) : bool :=
  ((9 <=? c) && (c <=? 13) || (28 <=? c) && (c <=? 32)
   || (c =? 133) || (c =? 160) || (c =? 5760)
   || (8192 <=? c) && (c <=? 8202)
   || (c =? 8232) || (c =? 8233) || (c =? 8239) || (c =? 8287)
   || (c =? 12288))%N.

Fixpoint lstrip (s : str) : str :=
  match s with
  | c :: t => if isspace c then lstrip t else s
  | [] => []
  end.

Definition rstrip (s : str) : str := rev (lstrip (rev s)).

(** [s.strip()] *)
Definition strip (s : str) : str := rstrip (lstrip s).

(** Truth value of a [str]: the empty string is false. *)
Definition str_truth (s : str) : bool :=
  match s with [] => false | _ :: _ => true end.

(** ** Floats *)

(** Python's [float]: IEEE 754 binary64. *)
Definition float := spec_float.

Definition prec : Z := 53.
Definition emax : Z := 1024.

(** The floats that exist at run time are the well-formed ones. *)
Definition valid_float (x : float) : bool := valid_binary prec emax x.

Definition fzero : float := S754_zero false.
Definition fone : float := S754_finite false 4503599627370496 (-52).
Definition fnan : float := S754_nan.

Definition fmul : float -> float -> float := SFmul prec emax.
Definition fadd : float -> float -> float := SFadd prec emax.
Definition fltb : float -> float -> bool := SFltb.
Definition fleb : float -> float -> bool := SFleb.

(** ** Exceptions and outcomes *)

Inductive exn :=
| TypeError (msg : string)
| ValueError (msg : string)
| OverflowError (msg : string)
| AttributeError (msg : string).

Inductive outcome (A : Type) :=
| Ok (a : A)
| Raise (e : exn).
Arguments Ok {A} a.
Arguments Raise {A} e.

Definition obind {A B} (x : outcome A) (k : A -> outcome B) : outcome B :=
  match x with
  | Ok a => k a
  | Raise e => Raise e
  end.

(** ** Values *)

(** A reference to an object of class [Producto]. *)
Abbreviation ref := nat (only parsing).

Inductive value :=
| VNone
| VBool (b : bool)
| VInt (n : Z)
| VFloat (x : float)
| VStr (s : str)
| VProducto (r : ref).

(** The instances of [int]: [bool] is a subclass of [int], and an
    attribute that holds one keeps which of the two it is. *)
Inductive pyint :=
| PBool (b : bool)
| PInt (n : Z).

Definition as_int (v : value) : option pyint :=
  match v with
  | VBool b => Some (PBool b)
  | VInt n => Some (PInt n)
  | _ => None
  end.

(** The integer an instance of [int] stands for ([True] is 1). *)
Definition int_value (i : pyint) : Z :=
  match i with
  | PBool b => Z.b2z b
  | PInt n => n
  end.

(** [isinstance(v, int)] *)
Definition isinstance_int (v : value) : bool :=
  match as_int v with Some _ => true | None => false end.

(** [isinstance(v, (int, float))] *)
Definition isinstance_int_float (v : value) : bool :=
  match v with
  | VFloat _ => true
  | _ => isinstance_int v
  end.

(** [float(n)] for an [int]: the nearest double, ties to even; an
    integer beyond the range of doubles raises [OverflowError]. *)
Definition float_of_int (n : Z) : outcome float :=
  match binary_normalize prec emax n 0 false with
  | S754_infinity _ =>
      Raise (OverflowError "int too large to convert to float")
  | x => Ok x
  end.

(** [float(v)] for an instance of [int] or [float], the only values the
    source passes to it, behind a test [isinstance]. On the other values
    of the model it raises [TypeError], as Python does on [None] and on an
    object ([float] of a [str] would parse it). *)
Definition to_float (v : value) : outcome float :=
  match v with
  | VFloat x => Ok x
  | _ =>
      match as_int v with
      | Some i => float_of_int (int_value i)
      | None =>
          Raise (TypeError "float() argument must be a string or a real number")
      end
  end.

(** [type(v).__name__] *)
Definition type_name (v : value) : string :=
  match v with
  | VNone => "NoneType"
  | VBool _ => "bool"
  | VInt _ => "int"
  | VFloat _ => "float"
  | VStr _ => "str"
  | VProducto _ => "Producto"
  end.

(** [v >= 0] and [v < 0] for a number [v]; a comparison with NaN is
    false. *)
Definition py_ge0 (v : value) : bool :=
  match v with
  | VFloat x => fleb fzero x
  | VInt n => 0 <=? n
  | VBool b => 0 <=? Z.b2z b
  | _ => false
  end.

Definition py_lt0 (v : value) : bool :=
  match v with
  | VFloat x => fltb x fzero
  | VInt n => n <? 0
  | VBool b => Z.b2z b <? 0
  | _ => false
  end.

(** [x == n] for a [float] and an [int]: the comparison is exact. *)
Definition float_eq_int (x : float) (n : Z) : bool :=
  match x with
  | S754_zero _ => n =? 0
  | S754_finite s m e =>
      if 0 <=? e then cond_Zopp s (Zpos m * 2 ^ e) =? n
      else cond_Zopp s (Zpos m) =? n * 2 ^ (- e)
  | _ => false
  end.

(** ** Class [Producto] *)

Record Producto := mkProducto {
  nombre : str;
  precio : float;
  cantidad : pyint
}.

Module Msg.
Definition nombre_vacio : string := "El nombre no puede estar vacío.".
Definition precio_no_numerico : string := "El precio debe ser numérico.".
Definition precio_negativo : string := "El precio no puede ser negativo.".
Definition cantidad_no_entera : string := "La cantidad debe ser un entero.".
Definition cantidad_negativa : string := "La cantidad no puede ser negativa.".
Definition no_es_producto : string :=
  "Solo se pueden agregar objetos de tipo Producto.".
Definition ya_existe : string := "Ya existe un producto con ese nombre.".
Definition buscar_vacio : string :=
  "El nombre a buscar no puede estar vacío.".
Definition sin_strip (tipo : string) : string :=
  "'" ++ tipo ++ "' object has no attribute 'strip'".
Definition sin_productos : string := "No hay productos en el inventario.".
Definition encabezado : string := "--- Productos en el inventario ---".
End Msg.

(** [nombre.strip() if isinstance(nombre, str) else ""] *)
Definition limpiar (nombre : value) : str :=
  match nombre with
  | VStr s => strip s
  | _ => []
  end.

(** [Producto.__init__]: the attributes of the new object, or the
    exception raised. *)
Definition Producto_init (nombre precio cantidad : value) : outcome Producto :=
  let nombre_limpio := limpiar nombre in
  if negb (str_truth nombre_limpio) then
    Raise (ValueError Msg.nombre_vacio)
  else if negb (isinstance_int_float precio) then
    Raise (TypeError Msg.precio_no_numerico)
  else
    obind (to_float precio) (fun precio_float =>
    if fltb precio_float fzero then
      Raise (ValueError Msg.precio_negativo)
    else
      match as_int cantidad with
      | None => Raise (TypeError Msg.cantidad_no_entera)
      | Some n =>
          if int_value n <? 0 then
            Raise (ValueError Msg.cantidad_negativa)
          else
            Ok (mkProducto nombre_limpio precio_float n)
      end).

(** [Producto.actualizar_precio]: the object after the call. *)
Definition actualizar_precio (self : Producto) (nuevo_precio : value)
  : outcome Producto :=
  if negb (isinstance_int_float nuevo_precio) then
    Raise (TypeError Msg.precio_no_numerico)
  else
    obind (to_float nuevo_precio) (fun nuevo_precio_float =>
    if fltb nuevo_precio_float fzero then
      Raise (ValueError Msg.precio_negativo)
    else
      Ok (mkProducto (nombre self) nuevo_precio_float (cantidad self))).

(** [Producto.actualizar_cantidad]: the object after the call. *)
Definition actualizar_cantidad (self : Producto) (nueva_cantidad : value)
  : outcome Producto :=
  match as_int nueva_cantidad with
  | None => Raise (TypeError Msg.cantidad_no_entera)
  | Some n =>
      if int_value n <? 0 then
        Raise (ValueError Msg.cantidad_negativa)
      else
        Ok (mkProducto (nombre self) (precio self) n)
  end.

(** [x * n] for a [float] and an instance of [int]: the integer is
    converted first, and the conversion can overflow. *)
Definition float_times (x : float) (n : pyint) : outcome float :=
  obind (float_of_int (int_value n)) (fun y => Ok (fmul x y)).

(** [Producto.calcular_valor_total] *)
Definition calcular_valor_total (self : Producto) : outcome float :=
  float_times (precio self) (cantidad self).

(** *** Formatting *)

(** [str(n)] for an [int]. *)
Definition format_int (n : Z) : str :=
  lit (NilZero.string_of_int (Z.to_int n)).

(** [str(n)] for an instance of [int]. *)
Definition format_pyint (n : pyint) : str :=
  match n with
  | PBool true => lit "True"
  | PBool false => lit "False"
  | PInt n => format_int n
  end.

(** The quotient [a / b] rounded to the nearest integer, ties to even. *)
Definition div_half_even (a b : Z) : Z :=
  let q := a / b in
  match (2 * (a mod b)) ?= b with
  | Lt => q
  | Gt => q + 1
  | Eq => if Z.even q then q else q + 1
  end.

(** The value [m * 2^e] in hundredths, correctly rounded. *)
Definition hundredths (m : positive) (e : Z) : Z :=
  if 0 <=? e then Zpos m * 2 ^ e * 100
  else div_half_even (Zpos m * 100) (2 ^ (- e)).

Definition sign_str (s : bool) : str := if s then lit "-" else [].

(** [format(x, ".2f")] *)
Definition format_2f (x : float) : str :=
  match x with
  | S754_nan => lit "nan"
  | S754_infinity s => sign_str s ++ lit "inf"
  | S754_zero s => sign_str s ++ lit "0.00"
  | S754_finite s m e =>
      let h := hundredths m e in
      sign_str s ++ format_int (h / 100) ++ lit "."
        ++ [(48 + Z.to_N (h mod 100 / 10))%N; (48 + Z.to_N (h mod 10))%N]
  end.

(** [Producto.__str__] *)
Definition Producto_str (self : Producto) : str :=
  lit "Producto: " ++ nombre self ++ lit " | Precio: $"
    ++ format_2f (precio self) ++ lit " | Cantidad: "
    ++ format_pyint (cantidad self).

(** ** The run-time library

    Two built-ins depend on the interpreter and are parameters of the
    development: [str.lower], given by the Unicode tables of the run time,
    and [sum] over floats, a left-to-right addition before CPython 3.12 and
    a compensated summation since. The instances below are used to run the
    model on ASCII names. *)

(** [str.lower] on ASCII text. *)
Definition ascii_lower (s : str) : str :=
  List.map (fun c => if (65 <=? c) && (c <=? 90) then c + 32 else c)%N s.

(** [sum] over a non-empty sequence of floats, starting from the integer
    0 and adding from left to right. *)
Definition left_sum (xs : list float) : float :=
  fold_left fadd xs fzero.

(** ** The store *)

(** The objects of class [Producto] allocated so far, the list
    [self.productos] of the inventory, which holds references, and what
    has been written to standard output, one entry for each [print]. *)
Record world := mkWorld {
  heap : list Producto;
  productos : list ref;
  stdout : list str
}.

(** The state after [Inventario()]. *)
Definition Inventario_init : world := mkWorld [] [] [].

(** A computation reads and updates the store and returns or raises; it
    has no result ([None]) only when it follows a reference to no object,
    which no Python program can hold. *)
Definition M (A : Type) : Type := world -> option (outcome A * world).

Definition ret {A} (a : A) : M A := fun w => Some (Ok a, w).

Definition raise {A} (e : exn) : M A := fun w => Some (Raise e, w).

Definition bind {A B} (m : M A) (k : A -> M B) : M B :=
  fun w =>
    match m w with
    | Some (Ok a, w') => k a w'
    | Some (Raise e, w') => Some (Raise e, w')
    | None => None
    end.

Notation "'let*' x ':=' m 'in' k" := (bind m (fun x => k))
  (at level 10, x name, m at level 100, k at level 200).

Definition lift {A} (o : outcome A) : M A := fun w => Some (o, w).

(** Attribute access on the object behind [r]. *)
Definition get_obj (r : ref) : M Producto :=
  fun w =>
    match heap w !! r with
    | Some p => Some (Ok p, w)
    | None => None
    end.

(** Assignment to the attributes of the object behind [r]. *)
Definition set_obj (r : ref) (p : Producto) : M unit :=
  fun w =>
    match heap w !! r with
    | Some _ => Some (Ok tt, mkWorld (<[r := p]> (heap w)) (productos w) (stdout w))
    | None => None
    end.

(** A new object, distinct from every other. *)
Definition alloc (p : Producto) : M ref :=
  fun w =>
    Some (Ok (length (heap w)), mkWorld (heap w ++ [p]) (productos w) (stdout w)).

Definition get_productos : M (list ref) :=
  fun w => Some (Ok (productos w), w).

(** [self.productos.append(r)] *)
Definition append_producto (r : ref) : M unit :=
  fun w => Some (Ok tt, mkWorld (heap w) (productos w ++ [r]) (stdout w)).

(** [print(s)]: the text and a newline. *)
Definition print (s : str) : M unit :=
  fun w => Some (Ok tt, mkWorld (heap w) (productos w) (stdout w ++ [s ++ [10%N]])).

(** The expression [Producto(nombre, precio, cantidad)]. *)
Definition Producto_new (nombre precio cantidad : value) : M value :=
  let* self := lift (Producto_init nombre precio cantidad) in
  let* r := alloc self in
  ret (VProducto r).

(** The call [r.actualizar_precio(nuevo_precio)]. *)
Definition call_actualizar_precio (r : ref) (nuevo_precio : value) : M value :=
  let* self := get_obj r in
  let* self' := lift (actualizar_precio self nuevo_precio) in
  let* _ := set_obj r self' in
  ret VNone.

(** The call [r.actualizar_cantidad(nueva_cantidad)]. *)
Definition call_actualizar_cantidad (r : ref) (nueva_cantidad : value) : M value :=
  let* self := get_obj r in
  let* self' := lift (actualizar_cantidad self nueva_cantidad) in
  let* _ := set_obj r self' in
  ret VNone.

(** The call [r.calcular_valor_total()]. *)
Definition call_calcular_valor_total (r : ref) : M value :=
  let* self := get_obj r in
  let* x := lift (calcular_valor_total self) in
  ret (VFloat x).

(** The call [str(r)]. *)
Definition call_str (r : ref) : M value :=
  let* self := get_obj r in
  ret (VStr (Producto_str self)).

(** The generator [p.calcular_valor_total() for p in self.productos],
    consumed to its end or to the first exception. *)
Fixpoint valores (ps : list ref) : M (list float) :=
  match ps with
  | [] => ret []
  | r :: rest =>
      let* p := get_obj r in
      let* x := lift (calcular_valor_total p) in
      let* xs := valores rest in
      ret (x :: xs)
  end.

(** The loop of [listar_productos], [i] being the number of the next
    line. *)
Fixpoint listar_loop (i : Z) (ps : list ref) : M unit :=
  match ps with
  | [] => ret tt
  | r :: rest =>
      let* producto := get_obj r in
      let* _ := print (format_int i ++ lit ". " ++ Producto_str producto) in
      listar_loop (i + 1) rest
  end.

(** [Inventario.listar_productos] *)
Definition listar_productos : M value :=
  let* ps := get_productos in
  match ps with
  | [] =>
      let* _ := print (lit Msg.sin_productos ++ [10%N]) in
      ret VNone
  | _ :: _ =>
      let* _ := print (10%N :: lit Msg.encabezado) in
      let* _ := listar_loop 1 ps in
      let* _ := print [] in
      ret VNone
  end.

(** ** Reading a store *)

(** [ps] are the objects of the inventory, in the order of its list. *)
Definition contents (w : world) (ps : list Producto) : Prop :=
  Forall2 (fun r p => heap w !! r = Some p) (productos w) ps.

(** The attributes of a product are within their domains: the name is
    not empty after trimming, the price is not negative and the quantity
    is not negative. The price test is the one of the source, which a NaN
    passes. *)
Definition valido (p : Producto) : Prop :=
  strip (nombre p) <> []
  /\ fltb (precio p) fzero = false
  /\ 0 <= int_value (cantidad p).

(** [p.calcular_valor_total() for p in ps], as the list of its values. *)
Fixpoint valores_de (ps : list Producto) : outcome (list float) :=
  match ps with
  | [] => Ok []
  | p :: rest =>
      obind (calcular_valor_total p) (fun x =>
      obind (valores_de rest) (fun xs => Ok (x :: xs)))
  end.

(** What a listing of the products [ps] writes: one entry for each
    [print], the products numbered from [i]. *)
Fixpoint lineas (i : Z) (ps : list Producto) : list str :=
  match ps with
  | [] => []
  | p :: rest =>
      (format_int i ++ lit ". " ++ Producto_str p ++ [10%N])
        :: lineas (i + 1) rest
  end.

Definition salida (ps : list Producto) : list str :=
  match ps with
  | [] => [lit Msg.sin_productos ++ [10%N; 10%N]]
  | _ :: _ =>
      [10%N :: lit Msg.encabezado ++ [10%N]] ++ lineas 1 ps ++ [[10%N]]
  end.

Section Inventario.

(** [str.lower] and [sum] over a non-empty sequence of floats. *)
Variable lower : str -> str.
Variable float_sum : list float -> float.

(** [sum(xs)]: the integer 0 for the empty sequence. *)
Definition py_sum (xs : list float) : value :=
  match xs with
  | [] => VInt 0
  | _ :: _ => VFloat (float_sum xs)
  end.

(** [a.lower() == b.lower()] *)
Definition same_name (a b : str) : bool :=
  bool_decide (lower a = lower b).

(** [any(p.nombre.lower() == producto.nombre.lower() for p in ps)] *)
Fixpoint any_same_name (producto : ref) (ps : list ref) : M bool :=
  match ps with
  | [] => ret false
  | r :: rest =>
      let* p := get_obj r in
      let* q := get_obj producto in
      if same_name (nombre p) (nombre q) then ret true
      else any_same_name producto rest
  end.

(** [Inventario.agregar_producto]; the test [isinstance] reads the
    object behind the reference. *)
Definition agregar_producto (producto : value) : M value :=
  match producto with
  | VProducto r =>
      let* _ := get_obj r in
      let* ps := get_productos in
      let* dup := any_same_name r ps in
      if dup then raise (ValueError Msg.ya_existe)
      else
        let* _ := append_producto r in
        ret VNone
  | _ => raise (TypeError Msg.no_es_producto)
  end.

(** The loop of [buscar_producto]. *)
Fixpoint buscar_loop (nombre_limpio : str) (ps : list ref) : M value :=
  match ps with
  | [] => ret VNone
  | r :: rest =>
      let* producto := get_obj r in
      if same_name (nombre producto) nombre_limpio then ret (VProducto r)
      else buscar_loop nombre_limpio rest
  end.

(** [Inventario.buscar_producto] *)
Definition buscar_producto (nombre : value) : M value :=
  match nombre with
  | VStr s =>
      let nombre_limpio := strip s in
      if negb (str_truth nombre_limpio) then
        raise (ValueError Msg.buscar_vacio)
      else
        let* ps := get_productos in
        buscar_loop nombre_limpio ps
  | _ => raise (AttributeError (Msg.sin_strip (type_name nombre)))
  end.

(** [Inventario.calcular_valor_inventario] *)
Definition calcular_valor_inventario : M value :=
  let* ps := get_productos in
  let* xs := valores ps in
  ret (py_sum xs).

(** *** Programs over one inventory *)

(** The calls a client can make. *)
Inductive op :=
| OpNew (nombre precio cantidad : value)
| OpSetPrice (r : ref) (v : value)
| OpSetQuantity (r : ref) (v : value)
| OpTotalValue (r : ref)
| OpStr (r : ref)
| OpAdd (producto : value)
| OpFind (nombre : value)
| OpTotal
| OpList.

Definition exec (o : op) : M value :=
  match o with
  | OpNew n p c => Producto_new n p c
  | OpSetPrice r v => call_actualizar_precio r v
  | OpSetQuantity r v => call_actualizar_cantidad r v
  | OpTotalValue r => call_calcular_valor_total r
  | OpStr r => call_str r
  | OpAdd v => agregar_producto v
  | OpFind n => buscar_producto n
  | OpTotal => calcular_valor_inventario
  | OpList => listar_productos
  end.

(** A client that catches every exception and goes on: the store after
    a sequence of calls, each of which returned or raised. *)
Fixpoint run (os : list op) (w : world) : option world :=
  match os with
  | [] => Some w
  | o :: rest =>
      match exec o w with
      | Some (_, w') => run rest w'
      | None => None
      end
  end.

(** [o] changes the list of the inventory or the attributes of a
    product. *)
Definition mutator (o : op) : bool :=
  match o with
  | OpAdd _ | OpSetPrice _ _ | OpSetQuantity _ _ => true
  | _ => false
  end.

(** The lowered names of the products of the inventory, in order. *)
Definition nombres (w : world) : list (option str) :=
  (fun r => (fun p => lower (nombre p)) <$> heap w !! r) <$> productos w.

(** What every store reached from the empty inventory satisfies: the
    objects are valid, the inventory refers to objects that exist, and
    no two of its products have the same name up to case. *)
Definition invariante (w : world) : Prop :=
  Forall valido (heap w)
  /\ Forall (fun r => (r < length (heap w))%nat) (productos w)
  /\ NoDup (nombres w).

End Inventario.

(** ** Attributes and effects *)

(** The Python value of an attribute that holds an instance of [int]. *)
Definition pyint_value (i : pyint) : value :=
  match i with
  | PBool b => VBool b
  | PInt n => VInt n
  end.

(** What a call can do to the store: nothing, allocate one object,
    replace the price or the quantity of one object, append one reference
    to the list of the inventory, or write to standard output. *)
Inductive efecto (w : world) : world -> Prop :=
| ef_nada : efecto w w
| ef_alloc (obj : Producto) :
    efecto w (mkWorld (heap w ++ [obj]) (productos w) (stdout w))
| ef_attr (r : nat) (self self' : Producto) :
    heap w !! r = Some self ->
    nombre self' = nombre self ->
    efecto w (mkWorld (<[r := self']> (heap w)) (productos w) (stdout w))
| ef_append (r : nat) :
    is_Some (heap w !! r) ->
    efecto w (mkWorld (heap w) (productos w ++ [r]) (stdout w))
| ef_print (out : list str) :
    efecto w (mkWorld (heap w) (productos w) (stdout w ++ out)).

(** ** The console

    [menu_principal] talks to a console: [input] writes its prompt to the
    standard output and reads the next line of the standard input, or
    raises [EOFError] when there is none. The standard input is the list
    of the lines still to be read, without their newlines. *)

(** The code points of a text written in UTF-8, for the literals of the
    source that have letters beyond ASCII. *)
Fixpoint utf8 (bs : list N) : str :=
  match bs with
  | [] => []
  | b :: rest =>
      if (b <? 128)%N then b :: utf8 rest
      else if (b <? 224)%N then
        match rest with
        | c :: rest => ((b - 192) * 64 + (c - 128))%N :: utf8 rest
        | [] => [b]
        end
      else if (b <? 240)%N then
        match rest with
        | c :: d :: rest =>
            ((b - 224) * 4096 + (c - 128) * 64 + (d - 128))%N :: utf8 rest
        | _ => [b]
        end
      else
        match rest with
        | c :: d :: e :: rest =>
            ((b - 240) * 262144 + (c - 128) * 4096 + (d - 128) * 64
             + (e - 128))%N :: utf8 rest
        | _ => [b]
        end
  end.

Definition texto (s : string) : str := utf8 (lit s).

(** [str(e)] for an exception raised with one message. *)
Definition mensaje (e : exn) : string :=
  match e with
  | TypeError m | ValueError m | OverflowError m | AttributeError m => m
  end.

(** The clauses [except ValueError] and [except (ValueError, TypeError)]. *)
Definition es_ValueError (e : exn) : bool :=
  match e with
  | ValueError _ => true
  | _ => false
  end.

Definition es_ValueError_o_TypeError (e : exn) : bool :=
  match e with
  | ValueError _ | TypeError _ => true
  | _ => false
  end.

(** How a computation at the console ends: it returns, it raises one of
    the exceptions above, or [input] raises [EOFError]. *)
Inductive resultado (A : Type) :=
| Valor (a : A)
| Lanza (e : exn)
| FinDeEntrada.
Arguments Valor {A} a.
Arguments Lanza {A} e.
Arguments FinDeEntrada {A}.

(** A computation at the console reads lines and updates the store; as
    for [M], it has no result when it leaves the model. *)
Definition IO (A : Type) : Type :=
  list str -> world -> option (resultado A * list str * world).

Definition retI {A} (a : A) : IO A :=
  fun entrada w => Some (Valor a, entrada, w).

Definition bindI {A B} (m : IO A) (k : A -> IO B) : IO B :=
  fun entrada w =>
    match m entrada w with
    | Some (Valor a, entrada', w') => k a entrada' w'
    | Some (Lanza e, entrada', w') => Some (Lanza e, entrada', w')
    | Some (FinDeEntrada, entrada', w') => Some (FinDeEntrada, entrada', w')
    | None => None
    end.

Notation "'let+' x ':=' m 'in' k" := (bindI m (fun x => k))
  (at level 10, x name, m at level 100, k at level 200).

(** A call that does not read the input. *)
Definition de_M {A} (m : M A) : IO A :=
  fun entrada w =>
    match m w with
    | Some (Ok a, w') => Some (Valor a, entrada, w')
    | Some (Raise e, w') => Some (Lanza e, entrada, w')
    | None => None
    end.

(** [try: m except clases as e: h e] *)
Definition atrapar {A} (clases : exn -> bool) (m : IO A) (h : exn -> IO A)
  : IO A :=
  fun entrada w =>
    match m entrada w with
    | Some (Lanza e, entrada', w') =>
        if clases e then h e entrada' w' else Some (Lanza e, entrada', w')
    | r => r
    end.

(** [input(prompt)] *)
Definition input (prompt : str) : IO str :=
  fun entrada w =>
    let w' := mkWorld (heap w) (productos w) (stdout w ++ [prompt]) in
    match entrada with
    | linea :: resto => Some (Valor linea, resto, w')
    | [] => Some (FinDeEntrada, [], w')
    end.

Definition imprimir (s : str) : IO unit := de_M (print s).

(** [producto.nombre] *)
Definition attr_nombre (v : value) : M str :=
  match v with
  | VProducto r =>
      let* p := get_obj r in
      ret (nombre p)
  | _ =>
      raise (AttributeError
               ("'" ++ type_name v ++ "' object has no attribute 'nombre'"))
  end.

(** [f"{producto}"] for an object of class [Producto]; the text of the
    other values is outside the model. *)
Definition formato_producto (v : value) : M str :=
  match v with
  | VProducto r =>
      let* p := get_obj r in
      ret (Producto_str p)
  | _ => fun _ => None
  end.

(** [f"{total:.2f}"] for a number: an [int] is converted to a [float]
    first; the other values are outside the model. *)
Definition formato_total (v : value) : M str :=
  if isinstance_int_float v then
    let* x := lift (to_float v) in
    ret (format_2f x)
  else fun _ => None.

Definition menu_texto : str :=
  lit "Sistema de Inventario" ++ [10%N]
    ++ lit "1. Agregar producto" ++ [10%N]
    ++ lit "2. Buscar producto" ++ [10%N]
    ++ lit "3. Listar productos" ++ [10%N]
    ++ lit "4. Calcular valor total del inventario" ++ [10%N]
    ++ lit "5. Salir".

(** The last text of the menu, as [print] writes it. *)
Definition despedida : str := lit "Saliendo del sistema..." ++ [10%N].

(** The exception of [float] on an integer beyond the range of doubles. *)
Definition desborde : exn :=
  OverflowError "int too large to convert to float".

(** What an iteration of the loop of the menu ends with: the next
    iteration, or [break]. *)
Inductive paso :=
| Continua
| Sale.

Section Menu.

(** [str.lower], [sum] over floats, and [float] and [int] on a [str]. *)
Variable lower : str -> str.
Variable float_sum : list float -> float.
Variable float_de_str : str -> outcome float.
Variable int_de_str : str -> outcome Z.

(** The branch [opc == "1"]. *)
Definition opcion_1 : IO unit :=
  atrapar es_ValueError_o_TypeError
    (let+ linea := input (lit "Ingrese el nombre del producto: ") in
     let nombre := strip linea in
     let+ linea := input (lit "Ingrese el precio del producto: ") in
     let+ precio := de_M (lift (float_de_str (strip linea))) in
     let+ linea := input (lit "Ingrese la cantidad del producto: ") in
     let+ cantidad := de_M (lift (int_de_str (strip linea))) in
     let+ producto :=
       de_M (Producto_new (VStr nombre) (VFloat precio) (VInt cantidad)) in
     let+ _ := de_M (agregar_producto lower producto) in
     let+ n := de_M (attr_nombre producto) in
     imprimir (lit "Producto '" ++ n ++ lit "' agregado al inventario."
                 ++ [10%N]))
    (fun e => imprimir (lit "Error: " ++ texto (mensaje e) ++ [10%N])).

(** The branch [opc == "2"]. *)
Definition opcion_2 : IO unit :=
  atrapar es_ValueError
    (let+ linea :=
       input (lit "Ingrese el nombre del producto a buscar: ") in
     let nombre_buscar := strip linea in
     let+ producto := de_M (buscar_producto lower (VStr nombre_buscar)) in
     match producto with
     | VNone => imprimir (lit "Producto no encontrado." ++ [10%N])
     | _ =>
         let+ s := de_M (formato_producto producto) in
         imprimir (lit "Encontrado: " ++ s ++ [10%N])
     end)
    (fun e => imprimir (lit "Error: " ++ texto (mensaje e) ++ [10%N])).

(** The branch [opc == "4"]. *)
Definition opcion_4 : IO unit :=
  let+ total := de_M (calcular_valor_inventario float_sum) in
  let+ s := de_M (formato_total total) in
  imprimir (lit "Valor total del inventario: $" ++ s ++ [10%N]).

(** The body of the loop after the option has been read. *)
Definition elegir (opc : str) : IO paso :=
  if negb (bool_decide (opc ∈ [lit "1"; lit "2"; lit "3"; lit "4"; lit "5"]))
  then
    let+ _ :=
      imprimir
        (texto "Error: Opción inválida. Debe ingresar un número del 1 al 5."
           ++ [10%N]) in
    retI Continua
  else if bool_decide (opc = lit "1") then
    let+ _ := opcion_1 in
    retI Continua
  else if bool_decide (opc = lit "2") then
    let+ _ := opcion_2 in
    retI Continua
  else if bool_decide (opc = lit "3") then
    let+ _ := de_M listar_productos in
    retI Continua
  else if bool_decide (opc = lit "4") then
    let+ _ := opcion_4 in
    retI Continua
  else if bool_decide (opc = lit "5") then
    let+ _ := imprimir (lit "Saliendo del sistema...") in
    retI Sale
  else retI Continua.

(** One iteration of [while True]. *)
Definition iteracion : IO paso :=
  let+ _ := imprimir menu_texto in
  let+ linea := input (texto "Seleccione una opción (1-5): ") in
  elegir (strip linea).

(** The loop, for at most [n] iterations. *)
Fixpoint menu_loop (n : nat) : IO unit :=
  match n with
  | O => fun _ _ => None
  | S n =>
      let+ p := iteracion in
      match p with
      | Continua => menu_loop n
      | Sale => retI tt
      end
  end.

(** [menu_principal(inventario)]: an iteration that goes on has read a
    line, so that the loop makes no more iterations than there are lines,
    and one. *)
Definition menu_principal : IO unit :=
  fun entrada w => menu_loop (S (length entrada)) entrada w.

(** The exceptions that no clause [except] of the menu catches: the
    overflow of [float], and what [float] and [int] on a [str] raise
    that is neither a [ValueError] nor a [TypeError]. *)
Definition escapa (e : exn) : Prop :=
  e = desborde
  \/ (es_ValueError_o_TypeError e = false
      /\ exists s, float_de_str s = Raise e \/ int_de_str s = Raise e).

(** The store grows: the list of the inventory and the standard output
    at their ends, and no object disappears. *)
Definition crece (w w' : world) : Prop :=
  productos w `prefix_of` productos w'
  /\ stdout w `prefix_of` stdout w'
  /\ forall r, is_Some (heap w !! r) -> is_Some (heap w' !! r).

(** From a store that satisfies the invariant and [P], the computation
    [m] has a result, which leaves a store that satisfies the invariant
    and has grown; a value [a] comes with [Q a], an exception is in
    [E]. *)
Definition triple {A} (P : world -> Prop) (m : IO A)
    (Q : A -> world -> Prop) (E : exn -> Prop) : Prop :=
  forall entrada w,
    invariante lower w -> P w ->
    exists res entrada' w',
      m entrada w = Some (res, entrada', w')
      /\ invariante lower w'
      /\ crece w w'
      /\ entrada' `suffix_of` entrada
      /\ match res with
         | Valor a => Q a w'
         | Lanza e => E e
         | FinDeEntrada => entrada' = []
         end.

End Menu.

(** [int] and [float] on a sequence of ASCII digits, to run the menu on
    such input; any other text is refused with [ValueError], as Python
    refuses the text that is no numeral, under a message that does not
    quote the text. *)
Fixpoint digitos (s : str) (acc : Z) : option Z :=
  match s with
  | [] => Some acc
  | c :: t =>
      if ((48 <=? c) && (c <=? 57))%N
      then digitos t (10 * acc + Z.of_N (c - 48))
      else None
  end.

Definition int_de_digitos (s : str) : outcome Z :=
  match s, digitos s 0 with
  | _ :: _, Some n => Ok n
  | _, _ => Raise (ValueError "invalid literal for int() with base 10")
  end.

Definition float_de_digitos (s : str) : outcome float :=
  match s, digitos s 0 with
  | _ :: _, Some n => Ok (binary_normalize prec emax n 0 false)
  | _, _ => Raise (ValueError "could not convert string to float")
  end.

(** ** A sample store

    The store after [p = Producto(" Pen ", 1.5, 100)],
    [inventario.agregar_producto(p)] and [q = Producto("pen", 2.0, 5)]. *)

Definition f_1_5 : float := S754_finite false 6755399441055744 (-52).
Definition f_2 : float := S754_finite false 4503599627370496 (-51).
Definition f_150 : float := S754_finite false 5277655813324800 (-45).

Definition ej_pen : Producto := mkProducto (lit "Pen") f_1_5 (PInt 100).
Definition ej_pen2 : Producto := mkProducto (lit "pen") f_2 (PInt 5).

Definition ej_programa : list op :=
  [OpNew (VStr (lit " Pen ")) (VFloat f_1_5) (VInt 100);
   OpAdd (VProducto 0);
   OpNew (VStr (lit "pen")) (VFloat f_2) (VInt 5)].

Definition ej_mundo : world := mkWorld [ej_pen; ej_pen2] [0%nat] [].

(** The same store with [q = Producto("Lapiz", 2.0, 5)] instead. *)
Definition ej_lapiz : Producto := mkProducto (lit "Lapiz") f_2 (PInt 5).

Definition ej_mundo2 : world := mkWorld [ej_pen; ej_lapiz] [0%nat] [].

(** A session at the console: the lines typed to add a product, to ask
    for the total and to leave, and the store at its end. *)
Definition ej_sesion : list str :=
  [lit "1"; lit " Pen "; lit "2"; lit "100"; lit "4"; lit "5"].


(** * Properties *)

(** ** Conversion of integers to floats *)

Lemma digits2_pos_le (m : positive) :
  2 ^ (Zpos (digits2_pos m) - 1) <= Zpos m.
Proof.
  induction m as [m IH | m IH |]; cbn [digits2_pos].
  - rewrite Pos2Z.inj_succ.
    replace (Z.succ (Zpos (digits2_pos m)) - 1)
      with (Z.succ (Zpos (digits2_pos m) - 1)) by lia.
    rewrite Z.pow_succ_r by lia. lia.
  - rewrite Pos2Z.inj_succ.
    replace (Z.succ (Zpos (digits2_pos m)) - 1)
      with (Z.succ (Zpos (digits2_pos m) - 1)) by lia.
    rewrite Z.pow_succ_r by lia. lia.
  - reflexivity.
Qed.

Lemma shr_m_shr_1 (r : shr_record) :
  0 <= shr_m r -> shr_m (shr_1 r) = shr_m r / 2.
Proof.
  destruct r as [m b s]; cbn [shr_m]; intros Hm.
  rewrite <- Z.div2_div.
  destruct m as [| q | q]; [reflexivity | | lia].
  destruct q; reflexivity.
Qed.

Lemma shr_m_iter (p : positive) :
  forall r : shr_record,
    0 <= shr_m r -> shr_m (SpecFloat.iter_pos shr_1 p r) = shr_m r / 2 ^ Zpos p.
Proof.
  induction p as [p IH | p IH |]; intros r Hr; cbn [SpecFloat.iter_pos].
  - assert (H1 : 0 <= shr_m (shr_1 r)).
    { rewrite shr_m_shr_1 by assumption. apply Z.div_pos; lia. }
    assert (H2 : 0 <= shr_m (SpecFloat.iter_pos shr_1 p (shr_1 r))).
    { rewrite IH by assumption. apply Z.div_pos; [assumption | lia]. }
    rewrite IH, IH, shr_m_shr_1 by assumption.
    rewrite !Z.div_div by lia.
    f_equal. rewrite <- Z.pow_add_r, <- Z.pow_succ_r by lia.
    f_equal. lia.
  - assert (H2 : 0 <= shr_m (SpecFloat.iter_pos shr_1 p r)).
    { rewrite IH by assumption. apply Z.div_pos; [assumption | lia]. }
    rewrite IH, IH by assumption.
    rewrite Z.div_div by lia.
    f_equal. rewrite <- Z.pow_add_r by lia.
    f_equal. lia.
  - rewrite shr_m_shr_1 by assumption. reflexivity.
Qed.

Lemma shr_m_of_loc (m : Z) (l : location) :
  shr_m (shr_record_of_loc m l) = m.
Proof. destruct l as [| []]; reflexivity. Qed.

(** Above the least exponent, the shift that rounding applies never
    empties a positive mantissa. *)
Lemma shr_fexp_pos (m : positive) (e : Z) (l : location) :
  emin prec emax <= e ->
  0 < shr_m (fst (shr_fexp prec emax (Zpos m) e l)).
Proof.
  intros He. unfold shr_fexp, shr. cbn [Zdigits2].
  set (n := fexp prec emax (Zpos (digits2_pos m) + e) - e).
  assert (Hn : n <= Zpos (digits2_pos m) - 1).
  { subst n. unfold fexp, prec in *. lia. }
  destruct n as [| p | p]; cbn [fst]; rewrite ?shr_m_of_loc; try lia.
  rewrite shr_m_iter by (rewrite shr_m_of_loc; lia).
  rewrite shr_m_of_loc.
  apply Z.div_str_pos. split; [lia |].
  pose proof (digits2_pos_le m) as Hd.
  assert (2 ^ Zpos p <= 2 ^ (Zpos (digits2_pos m) - 1))
    by (apply Z.pow_le_mono_r; lia).
  lia.
Qed.

Lemma shr_fexp_exp (m e : Z) (l : location) :
  e <= snd (shr_fexp prec emax m e l).
Proof.
  unfold shr_fexp, shr.
  destruct (fexp prec emax (Zdigits2 m + e) - e); cbn [snd]; lia.
Qed.

Lemma round_nearest_even_ge (m : Z) (l : location) :
  m <= round_nearest_even m l.
Proof.
  destruct l as [| []]; cbn [round_nearest_even]; try lia.
  destruct (Z.even m); lia.
Qed.

(** A positive mantissa above the least exponent rounds to a finite
    float or to an infinity of its sign, never to a zero. *)
Lemma binary_round_aux_pos (s : bool) (m : positive) (e : Z) (l : location) :
  emin prec emax <= e ->
  (exists m' e', binary_round_aux prec emax s (Zpos m) e l = S754_finite s m' e')
  \/ binary_round_aux prec emax s (Zpos m) e l = S754_infinity s.
Proof.
  intros He. unfold binary_round_aux.
  pose proof (shr_fexp_pos m e l He) as H1.
  pose proof (shr_fexp_exp (Zpos m) e l) as E1.
  destruct (shr_fexp prec emax (Zpos m) e l) as [mrs1 e1].
  cbn [fst snd] in H1, E1.
  pose proof (round_nearest_even_ge (shr_m mrs1) (loc_of_shr_record mrs1)) as H2.
  destruct (round_nearest_even (shr_m mrs1) (loc_of_shr_record mrs1))
    as [| m2 | m2]; try lia.
  assert (He1 : emin prec emax <= e1) by lia.
  pose proof (shr_fexp_pos m2 e1 loc_Exact He1) as H3.
  destruct (shr_fexp prec emax (Zpos m2) e1 loc_Exact) as [mrs2 e2].
  cbn [fst] in H3.
  destruct (shr_m mrs2) as [| m3 | m3]; try lia.
  destruct (e2 <=? emax - prec); eauto.
Qed.

Lemma shl_align_exp (m : positive) (e e' : Z) :
  Z.min e e' <= snd (shl_align m e e').
Proof.
  unfold shl_align. destruct (e' - e) eqn:E; cbn [snd]; lia.
Qed.

Lemma binary_round_int (s : bool) (m : positive) :
  (exists m' e', binary_round prec emax s m 0 = S754_finite s m' e')
  \/ binary_round prec emax s m 0 = S754_infinity s.
Proof.
  unfold binary_round.
  pose proof (shl_align_exp m 0
    (fexp prec emax (Zpos (digits2_pos m) + 0))) as He.
  destruct (shl_align m 0 (fexp prec emax (Zpos (digits2_pos m) + 0)))
    as [mz ez].
  cbn [snd] in He.
  apply binary_round_aux_pos.
  unfold fexp, emin, prec, emax in *. lia.
Qed.

(** [float(n)] keeps the sign of [n]. *)
Lemma float_of_int_negative (n : Z) (x : float) :
  n < 0 -> float_of_int n = Ok x -> fltb x fzero = true.
Proof.
  intros Hn. unfold float_of_int.
  destruct n as [| m | m]; try lia.
  cbn [binary_normalize].
  destruct (binary_round_int true m) as [(m' & e' & ->) | ->].
  - intros [= <-]. reflexivity.
  - discriminate.
Qed.

Lemma float_of_int_nonneg (n : Z) (x : float) :
  0 <= n -> float_of_int n = Ok x -> fltb x fzero = false.
Proof.
  intros Hn. unfold float_of_int.
  destruct n as [| m | m]; try lia.
  - intros [= <-]. reflexivity.
  - cbn [binary_normalize].
    destruct (binary_round_int false m) as [(m' & e' & ->) | ->].
    + intros [= <-]. reflexivity.
    + discriminate.
Qed.

(** [float(True)] is 1.0 and [float(False)] is 0.0. *)
Lemma float_of_bool (b : bool) :
  float_of_int (Z.b2z b) = Ok (if b then fone else fzero).
Proof. destruct b; reflexivity. Qed.

(** ** Validation in [Producto] *)

Lemma to_float_numeric (v : value) (x : float) :
  to_float v = Ok x -> isinstance_int_float v = true.
Proof. destruct v; cbn; try discriminate; reflexivity. Qed.

Lemma fleb_not_fltb (x : float) : fleb fzero x = true -> fltb x fzero = false.
Proof. destruct x as [[] | [] | | [] m e]; cbn; congruence. Qed.

(** A number that is [>= 0] passes the test [precio_float < 0]. *)
Lemma py_ge0_to_float (v : value) (x : float) :
  py_ge0 v = true -> to_float v = Ok x -> fltb x fzero = false.
Proof.
  destruct v as [| b | n | y | s | r]; cbn; try discriminate.
  - intros _. apply float_of_int_nonneg. destruct b; cbn; lia.
  - intros H. apply float_of_int_nonneg. lia.
  - intros H [= <-]. apply fleb_not_fltb, H.
Qed.

(** A number that is [< 0] fails it, when [float] converts it. *)
Lemma py_lt0_to_float (v : value) (x : float) :
  py_lt0 v = true -> to_float v = Ok x -> fltb x fzero = true.
Proof.
  destruct v as [| b | n | y | s | r]; cbn; try discriminate.
  - destruct b; discriminate.
  - intros H. apply float_of_int_negative. lia.
  - intros H [= <-]. exact H.
Qed.

Lemma str_truth_true (s : str) : str_truth s = true <-> s <> [].
Proof. destruct s; cbn; split; congruence. Qed.

(** [__init__] on arguments that pass every test. *)
Lemma Producto_init_ok (nombre precio cantidad : value) (x : float) (n : pyint) :
  str_truth (limpiar nombre) = true ->
  to_float precio = Ok x ->
  fltb x fzero = false ->
  as_int cantidad = Some n ->
  0 <= int_value n ->
  Producto_init nombre precio cantidad = Ok (mkProducto (limpiar nombre) x n).
Proof.
  intros Hs Hx Hlt Hn Hn0. unfold Producto_init.
  rewrite Hs, (to_float_numeric _ _ Hx), Hx. cbn.
  rewrite Hlt, Hn.
  destruct (Z.ltb_spec (int_value n) 0); [lia | reflexivity].
Qed.

Lemma Producto_init_precio_negativo (nombre precio cantidad : value) (x : float) :
  str_truth (limpiar nombre) = true ->
  to_float precio = Ok x ->
  fltb x fzero = true ->
  Producto_init nombre precio cantidad = Raise (ValueError Msg.precio_negativo).
Proof.
  intros Hs Hx Hlt. unfold Producto_init.
  rewrite Hs, (to_float_numeric _ _ Hx), Hx. cbn.
  rewrite Hlt. reflexivity.
Qed.

Lemma call_actualizar_precio_eq (w : world) (r : ref) (self : Producto) (v : value) :
  heap w !! r = Some self ->
  call_actualizar_precio r v w =
    match actualizar_precio self v with
    | Ok self' =>
        Some (Ok VNone, mkWorld (<[r := self']> (heap w)) (productos w) (stdout w))
    | Raise e => Some (Raise e, w)
    end.
Proof.
  intros Hr. unfold call_actualizar_precio, bind, get_obj, lift, set_obj, ret.
  rewrite Hr. destruct (actualizar_precio self v); [| reflexivity].
  cbn. rewrite Hr. reflexivity.
Qed.

Lemma call_actualizar_cantidad_eq (w : world) (r : ref) (self : Producto) (v : value) :
  heap w !! r = Some self ->
  call_actualizar_cantidad r v w =
    match actualizar_cantidad self v with
    | Ok self' =>
        Some (Ok VNone, mkWorld (<[r := self']> (heap w)) (productos w) (stdout w))
    | Raise e => Some (Raise e, w)
    end.
Proof.
  intros Hr. unfold call_actualizar_cantidad, bind, get_obj, lift, set_obj, ret.
  rewrite Hr. destruct (actualizar_cantidad self v); [| reflexivity].
  cbn. rewrite Hr. reflexivity.
Qed.

(** C1 (as amended). For a name whose trimmed text is not empty, a
    numeric price [>= 0] that [float] converts without overflow and an
    integer quantity [>= 0], the expression [Producto(...)] returns a new
    object that holds the trimmed name, [float(precio)] and the quantity,
    and [calcular_valor_total] on it evaluates the floating-point product
    of [float(precio)] and [float(cantidad)]: it returns that product, or
    raises [OverflowError] when the quantity has no [float]. *)
Theorem C1_construir_y_valor_total
    (s : str) (precio cantidad : value) (x : float) (n : pyint) (w : world) :
  strip s <> [] ->
  py_ge0 precio = true ->
  to_float precio = Ok x ->
  as_int cantidad = Some n ->
  0 <= int_value n ->
  let r := length (heap w) in
  let w' := mkWorld (heap w ++ [mkProducto (strip s) x n]) (productos w) (stdout w) in
  Producto_new (VStr s) precio cantidad w = Some (Ok (VProducto r), w')
  /\ call_calcular_valor_total r w' =
       Some (match float_of_int (int_value n) with
             | Ok y => Ok (VFloat (fmul x y))
             | Raise e => Raise e
             end, w').
Proof.
  intros Hs Hge Hx Hn Hn0 r w'. split.
  - unfold Producto_new, bind, lift, alloc, ret.
    rewrite (Producto_init_ok (VStr s) precio cantidad x n); try assumption.
    + reflexivity.
    + apply str_truth_true, Hs.
    + eapply py_ge0_to_float; eassumption.
  - unfold call_calcular_valor_total, bind, get_obj, lift, ret.
    subst r w'. cbn [heap].
    rewrite lookup_app_r by lia.
    rewrite Nat.sub_diag. cbn [lookup list_lookup].
    unfold calcular_valor_total, float_times. cbn.
    destruct (float_of_int (int_value n)); reflexivity.
Qed.

(** C4 (as amended). A negative price that [float] converts (every
    negative float, every negative integer in the range of doubles) and a
    negative integer quantity are refused with [ValueError]
    (InvalidArgument), by the constructor and by the mutators, and a
    refused mutator leaves the store as it was. *)
Theorem C4_valores_negativos (precio cantidad : value) (x : float) (n : pyint) :
  py_lt0 precio = true ->
  to_float precio = Ok x ->
  as_int cantidad = Some n ->
  int_value n < 0 ->
  (forall nombre c,
      str_truth (limpiar nombre) = true ->
      Producto_init nombre precio c = Raise (ValueError Msg.precio_negativo))
  /\ (forall nombre p y,
      str_truth (limpiar nombre) = true ->
      to_float p = Ok y ->
      fltb y fzero = false ->
      Producto_init nombre p cantidad = Raise (ValueError Msg.cantidad_negativa))
  /\ (forall w r self,
      heap w !! r = Some self ->
      call_actualizar_precio r precio w
        = Some (Raise (ValueError Msg.precio_negativo), w)
      /\ call_actualizar_cantidad r cantidad w
        = Some (Raise (ValueError Msg.cantidad_negativa), w)).
Proof.
  intros Hlt Hx Hn Hn0.
  pose proof (py_lt0_to_float _ _ Hlt Hx) as Hneg.
  split; [| split].
  - intros nombre c Hs. eapply Producto_init_precio_negativo; eassumption.
  - intros nombre p y Hs Hy Hy0. unfold Producto_init.
    rewrite Hs, (to_float_numeric _ _ Hy), Hy. cbn.
    rewrite Hy0, Hn.
    destruct (Z.ltb_spec (int_value n) 0); [reflexivity | lia].
  - intros w r self Hr. split.
    + rewrite (call_actualizar_precio_eq w r self) by assumption.
      unfold actualizar_precio.
      rewrite (to_float_numeric _ _ Hx), Hx. cbn. rewrite Hneg. reflexivity.
    + rewrite (call_actualizar_cantidad_eq w r self) by assumption.
      unfold actualizar_cantidad. rewrite Hn.
      destruct (Z.ltb_spec (int_value n) 0); [reflexivity | lia].
Qed.

(** C5. A price that is not an instance of [int] or [float] and a
    quantity that is not an instance of [int] are refused with
    [TypeError] (TypeMismatch), by the constructor, the arguments before
    them being valid, and by the mutators, which leave the store as it
    was. *)
Theorem C5_tipos_incorrectos (precio cantidad : value) :
  isinstance_int_float precio = false ->
  isinstance_int cantidad = false ->
  (forall nombre c,
      str_truth (limpiar nombre) = true ->
      Producto_init nombre precio c = Raise (TypeError Msg.precio_no_numerico))
  /\ (forall nombre p y,
      str_truth (limpiar nombre) = true ->
      to_float p = Ok y ->
      fltb y fzero = false ->
      Producto_init nombre p cantidad = Raise (TypeError Msg.cantidad_no_entera))
  /\ (forall w r self,
      heap w !! r = Some self ->
      call_actualizar_precio r precio w
        = Some (Raise (TypeError Msg.precio_no_numerico), w)
      /\ call_actualizar_cantidad r cantidad w
        = Some (Raise (TypeError Msg.cantidad_no_entera), w)).
Proof.
  intros Hp Hc.
  assert (Hc' : as_int cantidad = None).
  { unfold isinstance_int in Hc. destruct (as_int cantidad); congruence. }
  split; [| split].
  - intros nombre c Hs. unfold Producto_init. rewrite Hs, Hp. reflexivity.
  - intros nombre p y Hs Hy Hy0. unfold Producto_init.
    rewrite Hs, (to_float_numeric _ _ Hy), Hy. cbn.
    rewrite Hy0, Hc'. reflexivity.
  - intros w r self Hr. split.
    + rewrite (call_actualizar_precio_eq w r self) by assumption.
      unfold actualizar_precio. rewrite Hp. reflexivity.
    + rewrite (call_actualizar_cantidad_eq w r self) by assumption.
      unfold actualizar_cantidad. rewrite Hc'. reflexivity.
Qed.

(** C9. [True] and [False] pass the tests on the price and on the
    quantity, because [isinstance] counts a [bool] as an [int]: the
    constructor and [actualizar_precio] store [float(b)], 1.0 or 0.0, and
    the constructor and [actualizar_cantidad] store [b] itself. *)
Theorem C9_booleanos (b : bool) :
  (forall nombre c n,
      str_truth (limpiar nombre) = true ->
      as_int c = Some n ->
      0 <= int_value n ->
      Producto_init nombre (VBool b) c
        = Ok (mkProducto (limpiar nombre) (if b then fone else fzero) n))
  /\ (forall nombre p y,
      str_truth (limpiar nombre) = true ->
      to_float p = Ok y ->
      fltb y fzero = false ->
      Producto_init nombre p (VBool b)
        = Ok (mkProducto (limpiar nombre) y (PBool b)))
  /\ (forall self,
      actualizar_precio self (VBool b)
        = Ok (mkProducto (nombre self) (if b then fone else fzero) (cantidad self)))
  /\ (forall self,
      actualizar_cantidad self (VBool b)
        = Ok (mkProducto (nombre self) (precio self) (PBool b))).
Proof.
  split; [| split; [| split]].
  - intros nombre c n Hs Hn Hn0.
    apply Producto_init_ok; try assumption.
    + cbn. apply float_of_bool.
    + destruct b; reflexivity.
  - intros nombre p y Hs Hy Hy0.
    apply Producto_init_ok; try assumption.
    + reflexivity.
    + destruct b; cbn; lia.
  - intros self. destruct b; reflexivity.
  - intros self. destruct b; reflexivity.
Qed.

(** C10. A name that is not a [str] is taken for the empty name: the
    constructor raises the [ValueError] of the empty name
    (InvalidArgument), whatever the price and the quantity, and no
    [TypeError]. *)
Theorem C10_nombre_no_str (nombre precio cantidad : value) :
  (forall s, nombre <> VStr s) ->
  Producto_init nombre precio cantidad = Raise (ValueError Msg.nombre_vacio).
Proof.
  intros Hs. unfold Producto_init.
  destruct nombre; try reflexivity.
  exfalso. eapply Hs. reflexivity.
Qed.

(** ** The inventory *)

Section Propiedades.

Variable lower : str -> str.
Variable float_sum : list float -> float.

Lemma same_name_true (a b : str) :
  same_name lower a b = true <-> lower a = lower b.
Proof. unfold same_name. apply bool_decide_eq_true. Qed.

Lemma same_name_false (a b : str) :
  same_name lower a b = false <-> lower a <> lower b.
Proof. unfold same_name. apply bool_decide_eq_false. Qed.

(** The generator of [agregar_producto] is the test [existsb] on the
    objects of the inventory, and it changes nothing. *)
Lemma any_same_name_eq (w : world) (r : ref) (p : Producto)
    (rs : list ref) (ps : list Producto) :
  heap w !! r = Some p ->
  Forall2 (fun r' q => heap w !! r' = Some q) rs ps ->
  any_same_name lower r rs w
    = Some (Ok (existsb (fun q => same_name lower (nombre q) (nombre p)) ps), w).
Proof.
  intros Hr H.
  induction H as [| r' q rs ps Hq _ IH]; cbn [any_same_name existsb].
  - reflexivity.
  - unfold bind, get_obj. rewrite Hq, Hr.
    destruct (same_name lower (nombre q) (nombre p)); cbn [orb].
    + reflexivity.
    + exact IH.
Qed.

Lemma existsb_same_name (p : Producto) (ps : list Producto) :
  existsb (fun q => same_name lower (nombre q) (nombre p)) ps = true
  <-> exists q, q ∈ ps /\ lower (nombre q) = lower (nombre p).
Proof.
  rewrite existsb_exists. split.
  - intros (q & Hin & Hq). exists q. split.
    + apply list_elem_of_In, Hin.
    + apply same_name_true, Hq.
  - intros (q & Hin & Hq). exists q. split.
    + apply list_elem_of_In, Hin.
    + apply same_name_true, Hq.
Qed.

(** C2. [agregar_producto] raises [TypeError] (TypeMismatch) for an
    argument that is not a [Producto]; it raises the [ValueError] of the
    duplicate (DuplicateKey) and leaves the store, hence the contents and
    the size of the inventory, as they were when a product of the
    inventory has the name of the argument up to case; otherwise it
    appends the argument at the end of the list, the products before it
    keeping their places. *)
Theorem C2_agregar_producto (w : world) (ps : list Producto) (v : value) :
  contents w ps ->
  ((forall r, v <> VProducto r) ->
     agregar_producto lower v w
       = Some (Raise (TypeError Msg.no_es_producto), w))
  /\ (forall r p,
     v = VProducto r ->
     heap w !! r = Some p ->
     ((exists q, q ∈ ps /\ lower (nombre q) = lower (nombre p)) ->
        agregar_producto lower v w
          = Some (Raise (ValueError Msg.ya_existe), w))
     /\ ((forall q, q ∈ ps -> lower (nombre q) <> lower (nombre p)) ->
        let w' := mkWorld (heap w) (productos w ++ [r]) (stdout w) in
        agregar_producto lower v w = Some (Ok VNone, w')
        /\ contents w' (ps ++ [p])
        /\ (forall i r', productos w !! i = Some r' ->
                         productos w' !! i = Some r'))).
Proof.
  intros Hc. split.
  - intros Hv. destruct v; try reflexivity.
    exfalso. eapply Hv. reflexivity.
  - intros r p -> Hr.
    assert (Hany := any_same_name_eq w r p _ _ Hr Hc).
    split.
    + intros Hdup. apply existsb_same_name in Hdup.
      unfold agregar_producto, bind, get_obj, get_productos.
      rewrite Hr, Hany, Hdup. reflexivity.
    + intros Hnew w'.
      assert (Hno : existsb (fun q => same_name lower (nombre q) (nombre p)) ps
                    = false).
      { apply not_true_is_false. intros Hex.
        apply existsb_same_name in Hex. destruct Hex as (q & Hin & Hq).
        exact (Hnew q Hin Hq). }
      split; [| split].
      * unfold agregar_producto, bind, get_obj, get_productos.
        rewrite Hr, Hany, Hno. reflexivity.
      * unfold contents. subst w'. cbn [heap productos].
        apply Forall2_app; [exact Hc |].
        constructor; [exact Hr | constructor].
      * intros i r' Hi. subst w'. cbn [productos].
        apply lookup_app_l_Some, Hi.
Qed.

(** The loop of [buscar_producto] returns the first product whose name
    matches, or [None], and changes nothing. *)
Lemma buscar_loop_eq (w : world) (q : str) (rs : list ref) (ps : list Producto) :
  Forall2 (fun r p => heap w !! r = Some p) rs ps ->
  exists res,
    buscar_loop lower q rs w = Some (Ok res, w)
    /\ ((res = VNone
         /\ forall p, p ∈ ps -> lower (nombre p) <> lower q)
        \/ (exists i r p,
              res = VProducto r
              /\ rs !! i = Some r
              /\ ps !! i = Some p
              /\ lower (nombre p) = lower q
              /\ forall j p', (j < i)%nat -> ps !! j = Some p' ->
                              lower (nombre p') <> lower q)).
Proof.
  intros H.
  induction H as [| r p rs ps Hp _ IH]; cbn [buscar_loop].
  - exists VNone. split; [reflexivity |]. left. split; [reflexivity |].
    intros p Hin. inversion Hin.
  - unfold bind, get_obj. rewrite Hp.
    destruct (same_name lower (nombre p) q) eqn:E.
    + exists (VProducto r). split; [reflexivity |]. right.
      exists 0%nat, r, p. repeat split.
      * apply same_name_true, E.
      * intros j p' Hj. lia.
    + apply same_name_false in E.
      destruct IH as (res & Hres & Hcase).
      exists res. split; [exact Hres |].
      destruct Hcase as [[-> Hnone] | (i & r' & p' & -> & Hi & Hpi & Hm & Hbefore)].
      * left. split; [reflexivity |].
        intros p' Hin. apply elem_of_cons in Hin as [-> | Hin].
        -- exact E.
        -- apply Hnone, Hin.
      * right. exists (S i), r', p'. repeat split; try assumption.
        intros j p'' Hj Hjp. destruct j as [| j].
        -- cbn in Hjp. injection Hjp as <-. exact E.
        -- cbn in Hjp. apply (Hbefore j p''); [lia | exact Hjp].
Qed.

(** C3. For a query whose trimmed text is not empty, [buscar_producto]
    compares the lowered trimmed query with the lowered names in the
    order of insertion and returns the first product that matches, or
    [None] when none does (so also on the empty inventory); it raises
    nothing then, raises [ValueError] (InvalidArgument) exactly when the
    trimmed query is empty, and never changes the store. *)
Theorem C3_buscar_producto (w : world) (ps : list Producto) (s : str) :
  contents w ps ->
  (strip s = [] ->
     buscar_producto lower (VStr s) w
       = Some (Raise (ValueError Msg.buscar_vacio), w))
  /\ (strip s <> [] ->
     exists res,
       buscar_producto lower (VStr s) w = Some (Ok res, w)
       /\ ((res = VNone
            /\ forall p, p ∈ ps -> lower (nombre p) <> lower (strip s))
           \/ (exists i r p,
                 res = VProducto r
                 /\ productos w !! i = Some r
                 /\ ps !! i = Some p
                 /\ lower (nombre p) = lower (strip s)
                 /\ forall j p', (j < i)%nat -> ps !! j = Some p' ->
                      lower (nombre p') <> lower (strip s)))).
Proof.
  intros Hc. split.
  - intros Hs. unfold buscar_producto. rewrite Hs. reflexivity.
  - intros Hs. unfold buscar_producto.
    apply str_truth_true in Hs. rewrite Hs. cbn [negb].
    unfold bind, get_productos.
    apply buscar_loop_eq, Hc.
Qed.

(** The generator of [calcular_valor_inventario] yields the values of
    [calcular_valor_total] on the objects of the inventory, up to the
    first that raises, and changes nothing. *)
Lemma valores_eq (w : world) (rs : list ref) (ps : list Producto) :
  Forall2 (fun r p => heap w !! r = Some p) rs ps ->
  valores rs w = Some (valores_de ps, w).
Proof.
  intros H.
  induction H as [| r p rs ps Hp _ IH]; cbn [valores valores_de].
  - reflexivity.
  - unfold bind, get_obj, lift. rewrite Hp.
    destruct (calcular_valor_total p) as [x | e]; cbn [obind]; [| reflexivity].
    fold (bind (valores rs) (fun xs => ret (x :: xs)) w).
    unfold bind. rewrite IH.
    destruct (valores_de ps); reflexivity.
Qed.

Lemma calcular_valor_inventario_eq (w : world) (ps : list Producto) :
  contents w ps ->
  calcular_valor_inventario float_sum w
    = Some (obind (valores_de ps) (fun xs => Ok (py_sum float_sum xs)), w).
Proof.
  intros Hc. unfold calcular_valor_inventario, bind, get_productos.
  rewrite (valores_eq w _ ps Hc).
  destruct (valores_de ps); reflexivity.
Qed.

(** The loop of [listar_productos] prints one numbered line for each
    object, in order, and changes nothing else. *)
Lemma listar_loop_eq (h : list Producto) (rs : list ref) (ps : list Producto) :
  Forall2 (fun r p => h !! r = Some p) rs ps ->
  forall (i : Z) (w : world),
    heap w = h ->
    listar_loop i rs w
      = Some (Ok tt, mkWorld h (productos w) (stdout w ++ lineas i ps)).
Proof.
  intros H.
  induction H as [| r p rs ps Hp _ IH]; intros i w Hw;
    cbn [listar_loop lineas].
  - unfold ret. rewrite app_nil_r. destruct w; cbn in *. subst. reflexivity.
  - unfold bind, get_obj, print. rewrite Hw, Hp.
    rewrite IH by exact Hw.
    cbn [productos stdout]. rewrite <- !app_assoc. reflexivity.
Qed.

Lemma listar_productos_eq (w : world) (ps : list Producto) :
  contents w ps ->
  listar_productos w
    = Some (Ok VNone, mkWorld (heap w) (productos w) (stdout w ++ salida ps)).
Proof.
  intros Hc. unfold listar_productos, bind, get_productos.
  unfold contents in Hc.
  destruct (productos w) as [| r rs] eqn:Ers.
  - apply Forall2_nil_inv_l in Hc as ->.
    unfold print, ret, salida.
    rewrite Ers, <- app_assoc. reflexivity.
  - destruct ps as [| p ps]; [inversion Hc |].
    unfold print at 1.
    rewrite (listar_loop_eq (heap w) (r :: rs) (p :: ps) Hc) by reflexivity.
    unfold print, ret, salida. cbn [heap productos stdout].
    rewrite Ers, <- !app_assoc. reflexivity.
Qed.

Lemma listar_loop_frame (rs : list ref) :
  forall (i : Z) (w w' : world) (res : outcome unit),
    listar_loop i rs w = Some (res, w') ->
    productos w' = productos w /\ heap w' = heap w.
Proof.
  induction rs as [| r rs IH]; intros i w w' res H; cbn [listar_loop] in H.
  - injection H as <- <-. split; reflexivity.
  - unfold bind, get_obj, print in H.
    destruct (heap w !! r) as [p |]; [| discriminate].
    apply IH in H. exact H.
Qed.

(** A call that is not a mutator keeps the list of the inventory and
    the objects that exist; it can only allocate and print. *)
Lemma exec_no_mutator (o : op) (w w' : world) (res : outcome value) :
  mutator o = false ->
  exec lower float_sum o w = Some (res, w') ->
  productos w' = productos w
  /\ (heap w' = heap w
      \/ exists n p c obj,
           o = OpNew n p c
           /\ Producto_init n p c = Ok obj
           /\ heap w' = heap w ++ [obj]).
Proof.
  intros Hm He.
  assert (Hsame : forall (w0 : world) (P : Prop), heap w0 = heap w0 \/ P).
  { intros w0 P. left. reflexivity. }
  destruct o as [n p c | r v | r v | r | r | v | n | |];
    cbn [mutator] in Hm; try discriminate; cbn [exec] in He.
  - unfold Producto_new, bind, lift, alloc, ret in He.
    destruct (Producto_init n p c) as [obj | e] eqn:E; injection He as <- <-.
    + cbn [productos heap]. split; [reflexivity |]. right.
      exists n, p, c, obj. repeat split. exact E.
    + split; [reflexivity | apply Hsame].
  - unfold call_calcular_valor_total, bind, get_obj, lift, ret in He.
    destruct (heap w !! r) as [self |]; [| discriminate].
    destruct (calcular_valor_total self); injection He as <- <-;
      (split; [reflexivity | apply Hsame]).
  - unfold call_str, bind, get_obj, ret in He.
    destruct (heap w !! r) as [self |]; [| discriminate].
    injection He as <- <-. split; [reflexivity | apply Hsame].
  - unfold buscar_producto in He.
    destruct n as [| b | z | x | s | r];
      try (injection He as <- <-; split; [reflexivity | apply Hsame]).
    destruct (negb (str_truth (strip s))).
    + injection He as <- <-. split; [reflexivity | apply Hsame].
    + unfold bind, get_productos in He.
      revert He. generalize (productos w) at 1 as rs.
      induction rs as [| r rs IH]; cbn [buscar_loop]; intros He.
      * injection He as <- <-. split; [reflexivity | apply Hsame].
      * unfold bind, get_obj in He.
        destruct (heap w !! r) as [p |]; [| discriminate].
        destruct (same_name lower (nombre p) (strip s)).
        -- injection He as <- <-. split; [reflexivity | apply Hsame].
        -- apply IH, He.
  - unfold calcular_valor_inventario, bind, get_productos in He.
    assert (Hv : forall rs o', valores rs w = Some o' -> snd o' = w).
    { induction rs as [| r rs IH]; cbn [valores]; intros o' Ho.
      - injection Ho as <-. reflexivity.
      - unfold bind, get_obj, lift in Ho.
        destruct (heap w !! r) as [p |]; [| discriminate].
        destruct (calcular_valor_total p) as [x | e].
        + fold (bind (valores rs) (fun xs => ret (x :: xs)) w) in Ho.
          unfold bind in Ho.
          destruct (valores rs w) as [[[xs | e] w0] |] eqn:E;
            [| | discriminate].
          * injection Ho as <-. exact (IH _ eq_refl).
          * injection Ho as <-. exact (IH _ eq_refl).
        + injection Ho as <-. reflexivity. }
    destruct (valores (productos w) w) as [[[xs | e] w0] |] eqn:E;
      [| | discriminate].
    + apply Hv in E. cbn [snd] in E. subst w0.
      injection He as <- <-. split; [reflexivity | apply Hsame].
    + apply Hv in E. cbn [snd] in E. subst w0.
      injection He as <- <-. split; [reflexivity | apply Hsame].
  - unfold listar_productos, bind, get_productos in He.
    destruct (productos w) as [| r rs] eqn:Ers.
    + unfold print, ret in He. injection He as <- <-.
      cbn [productos heap]. split; [exact Ers | apply Hsame].
    + unfold print at 1 in He.
      destruct (listar_loop 1 (r :: rs) _) as [[[[] | e] w0] |] eqn:E;
        [| | discriminate].
      * apply listar_loop_frame in E. cbn [productos heap] in E.
        destruct E as [E1 E2].
        unfold print, ret in He. injection He as <- <-.
        cbn [productos heap]. rewrite E1, E2.
        split; [exact Ers | apply Hsame].
      * apply listar_loop_frame in E. cbn [productos heap] in E.
        destruct E as [E1 E2].
        injection He as <- <-. rewrite E1, E2.
        split; [exact Ers | apply Hsame].
Qed.

Lemma run_no_mutator (os : list op) :
  forall (w w' : world) (ps : list Producto),
    Forall (fun o => mutator o = false) os ->
    run lower float_sum os w = Some w' ->
    contents w ps ->
    contents w' ps.
Proof.
  induction os as [| o os IH]; intros w w' ps Hos Hrun Hc; cbn [run] in Hrun.
  - injection Hrun as <-. exact Hc.
  - apply Forall_cons in Hos as [Ho Hos].
    destruct (exec lower float_sum o w) as [[res w1] |] eqn:E; [| discriminate].
    apply (IH w1 w' ps Hos Hrun).
    destruct (exec_no_mutator o w w1 res Ho E)
      as [Hp [Hh | (n & p & c & obj & _ & _ & Hh)]];
      unfold contents in *; rewrite Hp, Hh; [exact Hc |].
    eapply Forall2_impl; [exact Hc |].
    intros r q Hr. apply lookup_app_l_Some, Hr.
Qed.

(** C7 (as amended). [calcular_valor_inventario] evaluates the sum of
    [calcular_valor_total] over the products of the inventory, in their
    order: it returns [sum] of these values, the integer 0 for the empty
    inventory, or raises what the first failing [calcular_valor_total]
    raises; it does not change the store; and calls repeated with no
    mutator in between (no successful or failed [agregar_producto],
    [actualizar_precio] or [actualizar_cantidad]) have the same
    outcome. *)
Theorem C7_calcular_valor_inventario (w : world) (ps : list Producto) :
  contents w ps ->
  calcular_valor_inventario float_sum w
    = Some (obind (valores_de ps) (fun xs => Ok (py_sum float_sum xs)), w)
  /\ (ps = [] ->
      calcular_valor_inventario float_sum w = Some (Ok (VInt 0), w))
  /\ (forall os w',
      Forall (fun o => mutator o = false) os ->
      run lower float_sum os w = Some w' ->
      fst <$> calcular_valor_inventario float_sum w'
        = fst <$> calcular_valor_inventario float_sum w).
Proof.
  intros Hc. split; [| split].
  - apply calcular_valor_inventario_eq, Hc.
  - intros ->. rewrite (calcular_valor_inventario_eq w [] Hc). reflexivity.
  - intros os w' Hos Hrun.
    rewrite (calcular_valor_inventario_eq w ps Hc).
    rewrite (calcular_valor_inventario_eq w' ps
               (run_no_mutator os w w' ps Hos Hrun Hc)).
    reflexivity.
Qed.


(** ** The invariant of the inventory *)

Lemma lstrip_app_nonspace (l : str) (c : N) :
  isspace c = false -> lstrip (l ++ [c]) = lstrip l ++ [c].
Proof.
  intros Hc. induction l as [| a l IH]; cbn [lstrip app].
  - rewrite Hc. reflexivity.
  - destruct (isspace a); [exact IH | reflexivity].
Qed.

Lemma lstrip_nonspace (c : N) (t : str) :
  isspace c = false -> lstrip (c :: t) = c :: t.
Proof. intros Hc. cbn [lstrip]. rewrite Hc. reflexivity. Qed.

Lemma lstrip_cases (s : str) :
  lstrip s = [] \/ exists c t, lstrip s = c :: t /\ isspace c = false.
Proof.
  induction s as [| a s IH]; cbn [lstrip].
  - left. reflexivity.
  - destruct (isspace a) eqn:E; [exact IH |].
    right. exists a, s. split; [reflexivity | exact E].
Qed.

Lemma rstrip_cons (c : N) (t : str) :
  isspace c = false -> rstrip (c :: t) = c :: rstrip t.
Proof.
  intros Hc. unfold rstrip. cbn [rev].
  rewrite lstrip_app_nonspace by exact Hc.
  apply rev_unit.
Qed.

Lemma rstrip_idem (s : str) : rstrip (rstrip s) = rstrip s.
Proof.
  unfold rstrip. rewrite rev_involutive.
  destruct (lstrip_cases (rev s)) as [-> | (c & t & -> & Hc)].
  - reflexivity.
  - rewrite lstrip_nonspace by exact Hc. reflexivity.
Qed.

(** Trimming a trimmed string changes nothing. *)
Lemma strip_idem (s : str) : strip (strip s) = strip s.
Proof.
  unfold strip.
  destruct (lstrip_cases s) as [-> | (c & t & -> & Hc)].
  - reflexivity.
  - rewrite (rstrip_cons c t Hc), (lstrip_nonspace c _ Hc).
    rewrite (rstrip_cons c _ Hc), rstrip_idem. reflexivity.
Qed.

Lemma Producto_init_valido (n p c : value) (obj : Producto) :
  Producto_init n p c = Ok obj -> valido obj.
Proof.
  unfold Producto_init.
  destruct (str_truth (limpiar n)) eqn:En; cbn [negb]; [| discriminate].
  destruct (isinstance_int_float p); cbn [negb]; [| discriminate].
  destruct (to_float p) as [x | e]; cbn [obind]; [| discriminate].
  destruct (fltb x fzero) eqn:Ex; [discriminate |].
  destruct (as_int c) as [k |]; [| discriminate].
  destruct (Z.ltb_spec (int_value k) 0) as [Hk | Hk]; [discriminate |].
  intros [= <-]. unfold valido; cbn [nombre precio cantidad].
  split; [| split; [exact Ex | exact Hk]].
  destruct n as [| | | | s |]; cbn [limpiar] in *; try discriminate.
  rewrite strip_idem. apply str_truth_true, En.
Qed.

Lemma actualizar_precio_valido (self self' : Producto) (v : value) :
  valido self ->
  actualizar_precio self v = Ok self' ->
  valido self' /\ nombre self' = nombre self.
Proof.
  intros (Hn & _ & Hq). unfold actualizar_precio.
  destruct (isinstance_int_float v); cbn [negb]; [| discriminate].
  destruct (to_float v) as [x | e]; cbn [obind]; [| discriminate].
  destruct (fltb x fzero) eqn:Ex; [discriminate |].
  intros [= <-]. unfold valido; cbn [nombre precio cantidad]. auto.
Qed.

Lemma actualizar_cantidad_valido (self self' : Producto) (v : value) :
  valido self ->
  actualizar_cantidad self v = Ok self' ->
  valido self' /\ nombre self' = nombre self.
Proof.
  intros (Hn & Hp & _). unfold actualizar_cantidad.
  destruct (as_int v) as [k |]; [| discriminate].
  destruct (Z.ltb_spec (int_value k) 0) as [Hk | Hk]; [discriminate |].
  intros [= <-]. unfold valido; cbn [nombre precio cantidad]. auto.
Qed.

(** An inventory that refers to objects that exist has contents. *)
Lemma contents_exists (h : list Producto) (rs : list ref) :
  Forall (fun r => (r < length h)%nat) rs ->
  exists ps, Forall2 (fun r p => h !! r = Some p) rs ps.
Proof.
  induction 1 as [| r rs Hr _ (ps & IH)].
  - exists []. constructor.
  - destruct (lookup_lt_is_Some_2 h r Hr) as [p Hp].
    exists (p :: ps). constructor; assumption.
Qed.

Lemma nombres_contents (w : world) (ps : list Producto) :
  contents w ps ->
  nombres lower w = (fun p => Some (lower (nombre p))) <$> ps.
Proof.
  unfold contents, nombres.
  induction 1 as [| r p rs ps Hp _ IH]; cbn [fmap list_fmap].
  - reflexivity.
  - rewrite Hp. cbn. f_equal. exact IH.
Qed.

Lemma nombres_ext (w w' : world) :
  productos w' = productos w ->
  (forall r, (r < length (heap w))%nat ->
     (fun p => lower (nombre p)) <$> heap w' !! r
       = (fun p => lower (nombre p)) <$> heap w !! r) ->
  Forall (fun r => (r < length (heap w))%nat) (productos w) ->
  nombres lower w' = nombres lower w.
Proof.
  intros Hp Hh Hwf. unfold nombres. rewrite Hp.
  apply Forall_fmap_ext_1.
  eapply Forall_impl; [exact Hwf |].
  intros r Hr. cbn beta. apply Hh, Hr.
Qed.

Lemma invariante_insert (w : world) (r : ref) (self self' : Producto) :
  invariante lower w ->
  heap w !! r = Some self ->
  valido self' ->
  nombre self' = nombre self ->
  invariante lower (mkWorld (<[r := self']> (heap w)) (productos w) (stdout w)).
Proof.
  intros (Hv & Hwf & Hnd) Hr Hv' Hn.
  unfold invariante. cbn [heap productos].
  split; [| split].
  - apply Forall_insert; assumption.
  - rewrite length_insert. exact Hwf.
  - rewrite (nombres_ext w); try assumption; try reflexivity.
    intros r' Hr'. cbn [heap].
    destruct (decide (r = r')) as [<- | Hne].
    + rewrite list_lookup_insert_eq by (eapply lookup_lt_Some; exact Hr).
      rewrite Hr. cbn. rewrite Hn. reflexivity.
    + rewrite list_lookup_insert_ne by exact Hne. reflexivity.
Qed.

(** Every call keeps the invariant, whether it returns or raises. *)
Lemma exec_invariante (o : op) (w w' : world) (res : outcome value) :
  invariante lower w ->
  exec lower float_sum o w = Some (res, w') ->
  invariante lower w'.
Proof.
  intros Hinv He.
  destruct (mutator o) eqn:Hm.
  - destruct o as [n p c | r v | r v | r | r | v | n | |];
      cbn [mutator] in Hm; try discriminate; cbn [exec] in He.
    + (* actualizar_precio *)
      destruct (heap w !! r) as [self |] eqn:Hr.
      * rewrite (call_actualizar_precio_eq w r self v Hr) in He.
        destruct (actualizar_precio self v) as [self' |] eqn:E;
          injection He as <- <-; [| exact Hinv].
        destruct Hinv as (Hv & Hwf & Hnd).
        destruct (actualizar_precio_valido self self' v) as [Hv' Hn];
          [eapply Forall_lookup_1; eassumption | exact E |].
        apply (invariante_insert w r self self'); try assumption.
        repeat split; assumption.
      * unfold call_actualizar_precio, bind, get_obj in He.
        rewrite Hr in He. discriminate.
    + (* actualizar_cantidad *)
      destruct (heap w !! r) as [self |] eqn:Hr.
      * rewrite (call_actualizar_cantidad_eq w r self v Hr) in He.
        destruct (actualizar_cantidad self v) as [self' |] eqn:E;
          injection He as <- <-; [| exact Hinv].
        destruct Hinv as (Hv & Hwf & Hnd).
        destruct (actualizar_cantidad_valido self self' v) as [Hv' Hn];
          [eapply Forall_lookup_1; eassumption | exact E |].
        apply (invariante_insert w r self self'); try assumption.
        repeat split; assumption.
      * unfold call_actualizar_cantidad, bind, get_obj in He.
        rewrite Hr in He. discriminate.
    + (* agregar_producto *)
      destruct v as [| b | z | x | s | r];
        try (injection He as <- <-; exact Hinv).
      unfold agregar_producto, bind, get_obj, get_productos in He.
      destruct (heap w !! r) as [p |] eqn:Hr; [| discriminate].
      destruct Hinv as (Hv & Hwf & Hnd).
      destruct (contents_exists _ _ Hwf) as [ps Hc].
      rewrite (any_same_name_eq w r p _ ps Hr Hc) in He.
      destruct (existsb _ ps) eqn:Hex.
      * injection He as <- <-. repeat split; assumption.
      * injection He as <- <-.
        unfold invariante. cbn [heap productos].
        split; [exact Hv | split].
        -- apply Forall_app. split; [exact Hwf |].
           constructor; [| constructor].
           eapply lookup_lt_Some. exact Hr.
        -- unfold nombres. cbn [heap productos].
           rewrite fmap_app. cbn [fmap list_fmap]. rewrite Hr.
           apply NoDup_app. split; [exact Hnd | split].
           ++ intros x Hx Hx'.
              apply list_elem_of_singleton in Hx'. subst x.
              fold (nombres lower w) in Hx.
              rewrite (nombres_contents w ps Hc) in Hx.
              apply list_elem_of_fmap in Hx as (q & Hq & Hin).
              injection Hq as Hq.
              assert (Hex' : existsb
                        (fun q => same_name lower (nombre q) (nombre p)) ps
                      = true).
              { apply existsb_same_name. exists q. split; [exact Hin |].
                symmetry. exact Hq. }
              congruence.
           ++ apply NoDup_singleton.
  - destruct (exec_no_mutator o w w' res Hm He)
      as [Hp [Hh | (n & p & c & obj & _ & Hobj & Hh)]];
      destruct Hinv as (Hv & Hwf & Hnd); unfold invariante;
      rewrite Hp, Hh.
    + split; [exact Hv | split; [exact Hwf |]].
      rewrite (nombres_ext w); try assumption.
      intros r _. rewrite Hh. reflexivity.
    + split; [| split].
      * apply Forall_app. split; [exact Hv |].
        constructor; [| constructor].
        eapply Producto_init_valido. exact Hobj.
      * rewrite length_app. eapply Forall_impl; [exact Hwf |].
        intros r Hr. cbn beta in *. lia.
      * rewrite (nombres_ext w); try assumption.
        intros r Hr. rewrite Hh, lookup_app_l by exact Hr. reflexivity.
Qed.

Lemma run_invariante (os : list op) :
  forall w w' : world,
    invariante lower w ->
    run lower float_sum os w = Some w' ->
    invariante lower w'.
Proof.
  induction os as [| o os IH]; intros w w' Hinv Hrun; cbn [run] in Hrun.
  - injection Hrun as <-. exact Hinv.
  - destruct (exec lower float_sum o w) as [[res w1] |] eqn:E; [| discriminate].
    eapply IH; [| exact Hrun].
    eapply exec_invariante; eassumption.
Qed.

Lemma invariante_init : invariante lower Inventario_init.
Proof.
  unfold invariante, Inventario_init, nombres. cbn.
  repeat split; constructor.
Qed.

(** In every store reached from the empty inventory, by calls that
    return or raise, no two products of the inventory have the same name
    up to case, and every product has a name that is not empty after
    trimming, a price that passes the test of the source (it is not
    below zero: a positive number, a zero or a NaN) and a quantity that
    is not negative. *)
Theorem invariante_alcanzable (os : list op) (w : world) :
  run lower float_sum os Inventario_init = Some w ->
  exists ps,
    contents w ps
    /\ NoDup ((fun p => lower (nombre p)) <$> ps)
    /\ Forall valido ps.
Proof.
  intros Hrun.
  destruct (run_invariante os _ _ invariante_init Hrun) as (Hv & Hwf & Hnd).
  destruct (contents_exists _ _ Hwf) as [ps Hc].
  exists ps. split; [exact Hc | split].
  - rewrite (nombres_contents w ps Hc) in Hnd.
    rewrite (list_fmap_compose (fun p => lower (nombre p)) Some) in Hnd.
    eapply NoDup_fmap_1. exact Hnd.
  - apply Forall_forall. intros p Hin.
    apply list_elem_of_lookup in Hin as [i Hi].
    destruct (Forall2_lookup_r _ _ _ _ _ Hc Hi) as (r & _ & Hr).
    eapply Forall_lookup_1; eassumption.
Qed.

End Propiedades.

(** ** More on [Producto] *)

Lemma to_float_outcome (v : value) :
  isinstance_int_float v = true ->
  (exists x, to_float v = Ok x)
  \/ to_float v = Raise (OverflowError "int too large to convert to float").
Proof.
  destruct v as [| b | n | y | s | r]; cbn; try discriminate; intros _.
  - left. rewrite float_of_bool. eauto.
  - unfold float_of_int.
    destruct (binary_normalize prec emax n 0 false); eauto.
  - eauto.
Qed.

(** What the constructor can answer. It builds an object only from a
    [str] whose trimmed text is not empty, a price that [float] converts
    to a number that is not below zero and an instance of [int] that is
    not negative, and the object holds exactly these; otherwise it raises
    one of its five errors, or the [OverflowError] of [float] on an
    integer beyond the range of doubles. *)
Theorem Producto_init_resultados (n p c : value) :
  match Producto_init n p c with
  | Ok obj =>
      exists s x k,
        n = VStr s /\ strip s <> []
        /\ to_float p = Ok x /\ fltb x fzero = false
        /\ as_int c = Some k /\ 0 <= int_value k
        /\ obj = mkProducto (strip s) x k
  | Raise e =>
      e ∈ [ValueError Msg.nombre_vacio;
           TypeError Msg.precio_no_numerico;
           OverflowError "int too large to convert to float";
           ValueError Msg.precio_negativo;
           TypeError Msg.cantidad_no_entera;
           ValueError Msg.cantidad_negativa]
  end.
Proof.
  unfold Producto_init.
  destruct (str_truth (limpiar n)) eqn:En; cbn [negb];
    [| repeat constructor].
  destruct (isinstance_int_float p) eqn:Ep; cbn [negb];
    [| repeat constructor].
  destruct (to_float_outcome p Ep) as [[x Hx] | Hx]; rewrite Hx; cbn [obind];
    [| repeat constructor].
  destruct (fltb x fzero) eqn:Ex; [repeat constructor |].
  destruct (as_int c) as [k |] eqn:Ec; [| repeat constructor].
  destruct (Z.ltb_spec (int_value k) 0) as [Hk | Hk]; [repeat constructor |].
  destruct n as [| | | | s |]; cbn [limpiar] in En; try discriminate.
  exists s, x, k. cbn [limpiar]. repeat split; try assumption.
  apply str_truth_true, En.
Qed.

(** Building a product again from the attributes of a product that the
    constructor built, [Producto(p.nombre, p.precio, p.cantidad)], gives a
    product with the same attributes: the stored name is already trimmed,
    the stored price is already a float that passes the test, and the
    stored quantity is still an instance of [int]. *)
Theorem Producto_init_reconstruye (n p c : value) (obj : Producto) :
  Producto_init n p c = Ok obj ->
  Producto_init (VStr (nombre obj)) (VFloat (precio obj))
    (pyint_value (cantidad obj)) = Ok obj.
Proof.
  intros H.
  destruct (Producto_init_valido n p c obj H) as (Hn & Hp & Hq).
  assert (Hs : strip (nombre obj) = nombre obj).
  { revert H. unfold Producto_init.
    destruct (str_truth (limpiar n)); cbn [negb]; [| discriminate].
    destruct (isinstance_int_float p); cbn [negb]; [| discriminate].
    destruct (to_float p) as [x | e]; cbn [obind]; [| discriminate].
    destruct (fltb x fzero); [discriminate |].
    destruct (as_int c) as [k |]; [| discriminate].
    destruct (int_value k <? 0); [discriminate |].
    intros [= <-]. cbn [nombre].
    destruct n; cbn [limpiar]; try reflexivity. apply strip_idem. }
  rewrite (Producto_init_ok _ _ _ (precio obj) (cantidad obj)).
  - cbn [limpiar]. rewrite Hs. destruct obj; reflexivity.
  - cbn [limpiar]. rewrite Hs. apply str_truth_true. rewrite <- Hs. exact Hn.
  - reflexivity.
  - exact Hp.
  - destruct (cantidad obj); reflexivity.
  - exact Hq.
Qed.


(** The two mutators on valid arguments, one after the other:
    [actualizar_precio] stores [float(v)] and keeps the name and the
    quantity, [actualizar_cantidad] stores the quantity and keeps the name
    and the new price, [calcular_valor_total] then multiplies the new
    price by the new quantity, and no other object changes. *)
Theorem actualizar_y_valor_total
    (w : world) (r : nat) (self : Producto) (v c : value) (x : float) (k : pyint) :
  heap w !! r = Some self ->
  to_float v = Ok x ->
  fltb x fzero = false ->
  as_int c = Some k ->
  0 <= int_value k ->
  let w1 := mkWorld (<[r := mkProducto (nombre self) x (cantidad self)]> (heap w))
              (productos w) (stdout w) in
  let w2 := mkWorld (<[r := mkProducto (nombre self) x k]> (heap w))
              (productos w) (stdout w) in
  call_actualizar_precio r v w = Some (Ok VNone, w1)
  /\ call_actualizar_cantidad r c w1 = Some (Ok VNone, w2)
  /\ call_calcular_valor_total r w2
     = Some (match float_of_int (int_value k) with
             | Ok y => Ok (VFloat (fmul x y))
             | Raise e => Raise e
             end, w2)
  /\ (forall r', r' <> r -> heap w2 !! r' = heap w !! r').
Proof.
  intros Hr Hx Hx0 Hk Hk0 w1 w2.
  assert (Hlen : (r < length (heap w))%nat) by (eapply lookup_lt_Some; exact Hr).
  split; [| split; [| split]].
  - rewrite (call_actualizar_precio_eq w r self v Hr).
    unfold actualizar_precio.
    rewrite (to_float_numeric _ _ Hx), Hx. cbn. rewrite Hx0. reflexivity.
  - assert (Hr1 : heap w1 !! r = Some (mkProducto (nombre self) x (cantidad self))).
    { subst w1. cbn [heap]. apply list_lookup_insert_eq, Hlen. }
    rewrite (call_actualizar_cantidad_eq w1 r _ c Hr1).
    unfold actualizar_cantidad. rewrite Hk.
    destruct (Z.ltb_spec (int_value k) 0) as [Hlt | _]; [lia |].
    subst w1 w2. cbn [heap productos stdout nombre precio].
    rewrite list_insert_insert_eq. reflexivity.
  - unfold call_calcular_valor_total, bind, get_obj, lift, ret.
    subst w2. cbn [heap].
    rewrite list_lookup_insert_eq by exact Hlen.
    unfold calcular_valor_total, float_times. cbn.
    destruct (float_of_int (int_value k)); reflexivity.
  - intros r' Hne. subst w2. cbn [heap].
    apply list_lookup_insert_ne. congruence.
Qed.

Lemma actualizar_precio_indep (a b : Producto) (v : value) :
  actualizar_precio a v
  = match actualizar_precio b v with
    | Ok b' => Ok (mkProducto (nombre a) (precio b') (cantidad a))
    | Raise e => Raise e
    end.
Proof.
  unfold actualizar_precio.
  destruct (isinstance_int_float v); cbn [negb]; [| reflexivity].
  destruct (to_float v) as [x | e]; cbn [obind]; [| reflexivity].
  destruct (fltb x fzero); reflexivity.
Qed.

Lemma actualizar_cantidad_indep (a b : Producto) (v : value) :
  actualizar_cantidad a v
  = match actualizar_cantidad b v with
    | Ok b' => Ok (mkProducto (nombre a) (precio a) (cantidad b'))
    | Raise e => Raise e
    end.
Proof.
  unfold actualizar_cantidad.
  destruct (as_int v) as [k |]; [| reflexivity].
  destruct (int_value k <? 0); reflexivity.
Qed.

Section Conmutan.

Variable lower : str -> str.
Variable float_sum : list float -> float.

(** [actualizar_precio] and [actualizar_cantidad] on one object can be
    called in either order: the store is the same at the end, whether
    each of them returns or raises. *)
Theorem actualizar_conmutan (w : world) (r : nat) (v c : value) :
  run lower float_sum [OpSetPrice r v; OpSetQuantity r c] w
  = run lower float_sum [OpSetQuantity r c; OpSetPrice r v] w.
Proof.
  cbn [run exec].
  destruct (heap w !! r) as [self |] eqn:Hr.
  - assert (Hlen : (r < length (heap w))%nat)
      by (eapply lookup_lt_Some; exact Hr).
    rewrite (call_actualizar_precio_eq w r self v Hr).
    rewrite (call_actualizar_cantidad_eq w r self c Hr).
    destruct (actualizar_precio self v) as [s1 |] eqn:E1;
      destruct (actualizar_cantidad self c) as [s2 |] eqn:E2.
    + rewrite (call_actualizar_cantidad_eq _ r s1 c)
        by (cbn [heap]; apply list_lookup_insert_eq, Hlen).
      rewrite (call_actualizar_precio_eq _ r s2 v)
        by (cbn [heap]; apply list_lookup_insert_eq, Hlen).
      rewrite (actualizar_cantidad_indep s1 self), E2.
      rewrite (actualizar_precio_indep s2 self), E1.
      cbn [heap productos stdout].
      rewrite !list_insert_insert_eq.
      revert E1 E2. unfold actualizar_precio, actualizar_cantidad.
      destruct (isinstance_int_float v); cbn [negb]; [| discriminate].
      destruct (to_float v) as [x | e]; cbn [obind]; [| discriminate].
      destruct (fltb x fzero); [discriminate |].
      destruct (as_int c) as [k |]; [| discriminate].
      destruct (int_value k <? 0); [discriminate |].
      intros [= <-] [= <-]. reflexivity.
    + rewrite (call_actualizar_cantidad_eq _ r s1 c)
        by (cbn [heap]; apply list_lookup_insert_eq, Hlen).
      rewrite (call_actualizar_precio_eq w r self v Hr).
      rewrite (actualizar_cantidad_indep s1 self), E2, E1. reflexivity.
    + rewrite (call_actualizar_cantidad_eq w r self c Hr).
      rewrite (call_actualizar_precio_eq _ r s2 v)
        by (cbn [heap]; apply list_lookup_insert_eq, Hlen).
      rewrite (actualizar_precio_indep s2 self), E1, E2. reflexivity.
    + rewrite (call_actualizar_cantidad_eq w r self c Hr).
      rewrite (call_actualizar_precio_eq w r self v Hr).
      rewrite E1, E2. reflexivity.
  - unfold call_actualizar_precio, call_actualizar_cantidad, bind, get_obj.
    rewrite Hr. reflexivity.
Qed.

End Conmutan.

(** ** Formatting *)

Lemma div_half_even_spec (a b : Z) :
  0 <= a -> 0 < b ->
  let h := div_half_even a b in
  0 <= h
  /\ Z.abs (2 * (h * b - a)) <= b
  /\ (Z.abs (2 * (h * b - a)) = b -> Z.even h = true).
Proof.
  intros Ha Hb h. subst h. unfold div_half_even.
  pose proof (Z.div_mod a b ltac:(lia)) as Hdm.
  pose proof (Z.mod_pos_bound a b Hb) as Hm.
  assert (Hq : 0 <= a / b) by (apply Z.div_pos; lia).
  destruct (Z.compare_spec (2 * (a mod b)) b) as [E | E | E].
  - destruct (Z.even (a / b)) eqn:Ev.
    + repeat split; [lia | nia | intros _; exact Ev].
    + repeat split; [lia | nia |].
      intros _. rewrite Z.even_add, Ev. reflexivity.
  - repeat split; [lia | nia | nia].
  - repeat split; [lia | nia | nia].
Qed.

(** [format(x, ".2f")] on a finite float, as [__str__] uses it for the
    price: the sign, the integer part, a point and two decimal digits,
    which together denote the number of hundredths [h] nearest to [x]:
    [x] itself when its exponent is not negative, and otherwise within
    half a hundredth of [x], an even [h] when [x] lies halfway. *)
Theorem format_2f_redondea (s : bool) (m : positive) (e : Z) :
  exists h : Z,
    format_2f (S754_finite s m e)
      = sign_str s ++ format_int (h / 100) ++ lit "."
          ++ [(48 + Z.to_N (h mod 100 / 10))%N; (48 + Z.to_N (h mod 10))%N]
    /\ 0 <= h
    /\ 0 <= h mod 100 / 10 <= 9
    /\ 0 <= h mod 10 <= 9
    /\ h mod 100 = 10 * (h mod 100 / 10) + h mod 10
    /\ (0 <= e -> h = Zpos m * 2 ^ e * 100)
    /\ (e < 0 ->
        Z.abs (2 * (h * 2 ^ (- e) - Zpos m * 100)) <= 2 ^ (- e)
        /\ (Z.abs (2 * (h * 2 ^ (- e) - Zpos m * 100)) = 2 ^ (- e) ->
            Z.even h = true)).
Proof.
  exists (hundredths m e).
  assert (Hh : 0 <= hundredths m e
               /\ (0 <= e -> hundredths m e = Zpos m * 2 ^ e * 100)
               /\ (e < 0 ->
                   Z.abs (2 * (hundredths m e * 2 ^ (- e) - Zpos m * 100))
                     <= 2 ^ (- e)
                   /\ (Z.abs (2 * (hundredths m e * 2 ^ (- e) - Zpos m * 100))
                         = 2 ^ (- e) ->
                       Z.even (hundredths m e) = true))).
  { unfold hundredths.
    destruct (Z.leb_spec 0 e) as [He | He].
    - split; [| split; [reflexivity | lia]].
      assert (0 < 2 ^ e) by (apply Z.pow_pos_nonneg; lia). nia.
    - assert (Hb : 0 < 2 ^ (- e)) by (apply Z.pow_pos_nonneg; lia).
      destruct (div_half_even_spec (Zpos m * 100) (2 ^ (- e)) ltac:(lia) Hb)
        as (H0 & H1 & H2).
      split; [exact H0 | split; [lia |]].
      intros _. split; assumption. }
  destruct Hh as (H0 & Hpos & Hneg).
  split; [reflexivity |].
  split; [exact H0 |].
  pose proof (Z.mod_pos_bound (hundredths m e) 100 ltac:(lia)) as B100.
  pose proof (Z.mod_pos_bound (hundredths m e) 10 ltac:(lia)) as B10.
  assert (Hd : hundredths m e mod 100 / 10 < 10)
    by (apply Z.div_lt_upper_bound; lia).
  assert (Hd0 : 0 <= hundredths m e mod 100 / 10)
    by (apply Z.div_pos; lia).
  split; [lia |].
  split; [lia |].
  split.
  { assert (E : (hundredths m e mod 100) mod 10 = hundredths m e mod 10).
    { rewrite (Z.div_mod (hundredths m e) 100) at 2 by lia.
      replace (100 * (hundredths m e / 100) + hundredths m e mod 100)
        with (hundredths m e mod 100 + (10 * (hundredths m e / 100)) * 10)
        by lia.
      rewrite Z.mod_add by lia. reflexivity. }
    rewrite <- E. apply Z.div_mod. lia. }
  split; assumption.
Qed.

(** ** Calls in sequence *)

Section Composicion.

Variable lower : str -> str.
Variable float_sum : list float -> float.

(** The generators and loops read the store and leave it as it was. *)
Lemma any_same_name_frame (r : nat) (rs : list nat) :
  forall (w w' : world) (o : outcome bool),
    any_same_name lower r rs w = Some (o, w') ->
    w' = w /\ exists b, o = Ok b.
Proof.
  induction rs as [| r' rs IH]; intros w w' o H; cbn [any_same_name] in H.
  - injection H as <- <-. eauto.
  - unfold bind, get_obj in H.
    destruct (heap w !! r') as [p |]; [| discriminate].
    destruct (heap w !! r) as [q |]; [| discriminate].
    destruct (same_name lower (nombre p) (nombre q)).
    + injection H as <- <-. eauto.
    + apply IH, H.
Qed.

Lemma buscar_loop_frame (q : str) (rs : list nat) :
  forall (w w' : world) (o : outcome value),
    buscar_loop lower q rs w = Some (o, w') ->
    w' = w /\ exists v, o = Ok v.
Proof.
  induction rs as [| r rs IH]; intros w w' o H; cbn [buscar_loop] in H.
  - injection H as <- <-. eauto.
  - unfold bind, get_obj in H.
    destruct (heap w !! r) as [p |]; [| discriminate].
    destruct (same_name lower (nombre p) q).
    + injection H as <- <-. eauto.
    + apply IH, H.
Qed.

Lemma calcular_valor_total_raise (p : Producto) (e : exn) :
  calcular_valor_total p = Raise e ->
  e = OverflowError "int too large to convert to float".
Proof.
  unfold calcular_valor_total, float_times, float_of_int.
  destruct (binary_normalize prec emax (int_value (cantidad p)) 0 false);
    cbn [obind]; congruence.
Qed.

Lemma valores_frame (rs : list nat) :
  forall (w w' : world) (o : outcome (list float)),
    valores rs w = Some (o, w') ->
    w' = w
    /\ forall e, o = Raise e ->
                 e = OverflowError "int too large to convert to float".
Proof.
  induction rs as [| r rs IH]; intros w w' o H; cbn [valores] in H.
  - injection H as <- <-. split; [reflexivity | discriminate].
  - unfold bind, get_obj, lift in H.
    destruct (heap w !! r) as [p |]; [| discriminate].
    destruct (calcular_valor_total p) as [x | e0] eqn:E.
    + fold (bind (valores rs) (fun xs => ret (x :: xs)) w) in H.
      unfold bind in H.
      destruct (valores rs w) as [[[xs | e1] w1] |] eqn:E1; [| | discriminate].
      * destruct (IH _ _ _ E1) as [-> _].
        injection H as <- <-. split; [reflexivity | discriminate].
      * destruct (IH _ _ _ E1) as [-> He1].
        injection H as <- <-. split; [reflexivity |].
        intros e [= <-]. apply He1. reflexivity.
    + injection H as <- <-. split; [reflexivity |].
      intros e [= <-]. eapply calcular_valor_total_raise, E.
Qed.

Lemma listar_loop_out (rs : list nat) :
  forall (i : Z) (w w' : world) (o : outcome unit),
    listar_loop i rs w = Some (o, w') ->
    o = Ok tt
    /\ exists out,
         w' = mkWorld (heap w) (productos w) (stdout w ++ out)
         /\ length out = length rs.
Proof.
  induction rs as [| r rs IH]; intros i w w' o H; cbn [listar_loop] in H.
  - injection H as <- <-. split; [reflexivity |].
    exists []. rewrite app_nil_r. destruct w; split; reflexivity.
  - unfold bind, get_obj, print in H.
    destruct (heap w !! r) as [p |]; [| discriminate].
    apply IH in H as [-> (out & -> & Hlen)].
    split; [reflexivity |].
    cbn [heap productos stdout].
    eexists (_ :: out). rewrite <- app_assoc. split; [reflexivity |].
    cbn [length]. rewrite Hlen. reflexivity.
Qed.

Lemma actualizar_precio_nombre (self self' : Producto) (v : value) :
  actualizar_precio self v = Ok self' ->
  nombre self' = nombre self /\ cantidad self' = cantidad self.
Proof.
  unfold actualizar_precio.
  destruct (isinstance_int_float v); cbn [negb]; [| discriminate].
  destruct (to_float v) as [x | e]; cbn [obind]; [| discriminate].
  destruct (fltb x fzero); [discriminate |].
  intros [= <-]. split; reflexivity.
Qed.

Lemma actualizar_cantidad_nombre (self self' : Producto) (v : value) :
  actualizar_cantidad self v = Ok self' ->
  nombre self' = nombre self /\ precio self' = precio self.
Proof.
  unfold actualizar_cantidad.
  destruct (as_int v) as [k |]; [| discriminate].
  destruct (int_value k <? 0); [discriminate |].
  intros [= <-]. split; reflexivity.
Qed.

Lemma exec_efecto (o : op) (w w' : world) (res : outcome value) :
  exec lower float_sum o w = Some (res, w') ->
  efecto w w' /\ forall e, res = Raise e -> w' = w.
Proof.
  intros He.
  destruct o as [n p c | r v | r v | r | r | v | n | |]; cbn [exec] in He.
  - unfold Producto_new, bind, lift, alloc, ret in He.
    destruct (Producto_init n p c) as [obj | e0]; injection He as <- <-.
    + split; [apply ef_alloc | discriminate].
    + split; [apply ef_nada | reflexivity].
  - destruct (heap w !! r) as [self |] eqn:Hr.
    + rewrite (call_actualizar_precio_eq w r self v Hr) in He.
      destruct (actualizar_precio self v) as [self' |] eqn:E;
        injection He as <- <-.
      * split; [| discriminate].
        eapply ef_attr; [exact Hr |].
        apply (actualizar_precio_nombre _ _ _ E).
      * split; [apply ef_nada | reflexivity].
    + unfold call_actualizar_precio, bind, get_obj in He.
      rewrite Hr in He. discriminate.
  - destruct (heap w !! r) as [self |] eqn:Hr.
    + rewrite (call_actualizar_cantidad_eq w r self v Hr) in He.
      destruct (actualizar_cantidad self v) as [self' |] eqn:E;
        injection He as <- <-.
      * split; [| discriminate].
        eapply ef_attr; [exact Hr |].
        apply (actualizar_cantidad_nombre _ _ _ E).
      * split; [apply ef_nada | reflexivity].
    + unfold call_actualizar_cantidad, bind, get_obj in He.
      rewrite Hr in He. discriminate.
  - unfold call_calcular_valor_total, bind, get_obj, lift, ret in He.
    destruct (heap w !! r) as [self |]; [| discriminate].
    destruct (calcular_valor_total self); injection He as <- <-;
      (split; [apply ef_nada | reflexivity]).
  - unfold call_str, bind, get_obj, ret in He.
    destruct (heap w !! r) as [self |]; [| discriminate].
    injection He as <- <-. split; [apply ef_nada | reflexivity].
  - destruct v as [| b | z | x | s | r];
      try (injection He as <- <-; split; [apply ef_nada | reflexivity]).
    unfold agregar_producto, bind, get_obj, get_productos in He.
    destruct (heap w !! r) as [p |] eqn:Hr; [| discriminate].
    destruct (any_same_name lower r (productos w) w) as [[o1 w1] |] eqn:E;
      [| discriminate].
    destruct (any_same_name_frame _ _ _ _ _ E) as [-> [b ->]].
    destruct b; injection He as <- <-.
    + split; [apply ef_nada | reflexivity].
    + split; [| discriminate]. apply ef_append. rewrite Hr. eauto.
  - unfold buscar_producto in He.
    destruct n as [| b | z | x | s | r];
      try (injection He as <- <-; split; [apply ef_nada | reflexivity]).
    destruct (negb (str_truth (strip s))).
    + injection He as <- <-. split; [apply ef_nada | reflexivity].
    + unfold bind, get_productos in He.
      destruct (buscar_loop_frame _ _ _ _ _ He) as [-> _].
      split; [apply ef_nada | reflexivity].
  - unfold calcular_valor_inventario, bind, get_productos in He.
    destruct (valores (productos w) w) as [[[xs | e0] w1] |] eqn:E;
      [| | discriminate];
      destruct (valores_frame _ _ _ _ E) as [-> _];
      injection He as <- <-; (split; [apply ef_nada | reflexivity]).
  - unfold listar_productos, bind, get_productos in He.
    destruct (productos w) as [| r rs] eqn:Ers.
    + unfold print, ret in He. injection He as <- <-.
      split; [apply ef_print | discriminate].
    + unfold print at 1 in He.
      destruct (listar_loop 1 (r :: rs) _) as [[o1 w1] |] eqn:E;
        [| discriminate].
      destruct (listar_loop_out _ _ _ _ _ E) as [-> (out & -> & _)].
      unfold print, ret in He. injection He as <- <-.
      cbn [heap productos stdout]. split; [| discriminate].
      rewrite <- !app_assoc. apply ef_print.
Qed.

(** Adding then searching. When no product of the inventory has the name
    of [p] up to case, [agregar_producto(p)] returns, and a search for any
    text whose trimmed form is the name of [p] up to case then returns
    [p] itself: the reference that was added, not a copy. *)
Theorem agregar_y_buscar
    (w : world) (ps : list Producto) (r : nat) (p : Producto) (s : str) :
  contents w ps ->
  heap w !! r = Some p ->
  (forall q, q ∈ ps -> lower (nombre q) <> lower (nombre p)) ->
  strip s <> [] ->
  lower (strip s) = lower (nombre p) ->
  let w' := mkWorld (heap w) (productos w ++ [r]) (stdout w) in
  agregar_producto lower (VProducto r) w = Some (Ok VNone, w')
  /\ buscar_producto lower (VStr s) w' = Some (Ok (VProducto r), w').
Proof.
  intros Hc Hr Hnew Hs Hsp w'.
  assert (Hc' : contents w' (ps ++ [p])).
  { unfold contents. subst w'. cbn [heap productos].
    apply Forall2_app; [exact Hc |]. constructor; [exact Hr | constructor]. }
  split.
  - assert (Hno : existsb (fun q => same_name lower (nombre q) (nombre p)) ps
                  = false).
    { apply not_true_is_false. intros Hex.
      apply existsb_same_name in Hex. destruct Hex as (q & Hin & Hq).
      exact (Hnew q Hin Hq). }
    unfold agregar_producto, bind, get_obj, get_productos.
    rewrite Hr, (any_same_name_eq lower w r p _ ps Hr Hc), Hno. reflexivity.
  - unfold buscar_producto.
    apply str_truth_true in Hs. rewrite Hs. cbn [negb].
    unfold bind, get_productos.
    destruct (buscar_loop_eq lower w' (strip s) _ _ Hc')
      as (res & Hres & Hcase).
    rewrite Hres. do 2 f_equal.
    destruct Hcase as [[_ Hnone] | (i & r' & p' & -> & Hi & Hpi & Hm & _)].
    + exfalso. apply (Hnone p); [| symmetry; exact Hsp].
      apply elem_of_app. right. apply list_elem_of_singleton. reflexivity.
    + pose proof (Forall2_length _ _ _ Hc) as Hlen.
      destruct (decide (i < length ps)%nat) as [Hlt | Hge].
      * exfalso. rewrite lookup_app_l in Hpi by exact Hlt.
        apply (Hnew p'); [| congruence].
        eapply list_elem_of_lookup_2. exact Hpi.
      * subst w'. cbn [productos] in Hi.
        rewrite lookup_app_r in Hi by lia.
        assert (Hi0 : (i - length (productos w) = 0)%nat).
        { apply lookup_lt_Some in Hpi. rewrite length_app in Hpi.
          cbn [length] in Hpi. lia. }
        rewrite Hi0 in Hi. cbn in Hi. congruence.
Qed.

(** After [agregar_producto(p)] has returned, the inventory is one
    product longer, and adding [p] again, or any object whose name is the
    name of [p] up to case, raises the error of the duplicate and leaves
    the store as it is. *)
Theorem agregar_dos_veces
    (w w' : world) (ps : list Producto) (r : nat) (p : Producto) :
  contents w ps ->
  heap w !! r = Some p ->
  agregar_producto lower (VProducto r) w = Some (Ok VNone, w') ->
  length (productos w') = S (length (productos w))
  /\ forall r2 q,
       heap w !! r2 = Some q ->
       lower (nombre q) = lower (nombre p) ->
       agregar_producto lower (VProducto r2) w'
         = Some (Raise (ValueError Msg.ya_existe), w').
Proof.
  intros Hc Hr Hadd.
  unfold agregar_producto, bind, get_obj, get_productos in Hadd.
  rewrite Hr, (any_same_name_eq lower w r p _ ps Hr Hc) in Hadd.
  destruct (existsb _ ps); [discriminate |].
  injection Hadd as <-.
  split.
  - cbn [productos]. rewrite length_app. cbn [length]. lia.
  - intros r2 q Hr2 Hq.
    set (w' := mkWorld (heap w) (productos w ++ [r]) (stdout w)).
    assert (Hc' : contents w' (ps ++ [p])).
    { unfold contents. subst w'. cbn [heap productos].
      apply Forall2_app; [exact Hc |]. constructor; [exact Hr | constructor]. }
    assert (Hr2' : heap w' !! r2 = Some q) by exact Hr2.
    unfold agregar_producto, bind, get_obj, get_productos.
    rewrite Hr2', (any_same_name_eq lower w' r2 q _ (ps ++ [p]) Hr2' Hc').
    assert (Hex : existsb (fun q0 => same_name lower (nombre q0) (nombre q))
                    (ps ++ [p]) = true).
    { apply existsb_same_name. exists p. split; [| symmetry; exact Hq].
      apply elem_of_app. right. apply list_elem_of_singleton. reflexivity. }
    rewrite Hex. reflexivity.
Qed.

Lemma contents_insert
    (w : world) (ps : list Producto) (i r : nat) (p' : Producto) :
  contents w ps ->
  NoDup (productos w) ->
  productos w !! i = Some r ->
  contents (mkWorld (<[r := p']> (heap w)) (productos w) (stdout w))
    (<[i := p']> ps).
Proof.
  intros Hc Hnd Hi. unfold contents in *. cbn [heap productos].
  pose proof (Forall2_length _ _ _ Hc) as Hlen.
  apply Forall2_same_length_lookup. split.
  - rewrite length_insert. exact Hlen.
  - intros j rj pj Hj Hpj.
    destruct (Forall2_lookup_l _ _ _ _ _ Hc Hj) as (pj0 & Hpj0 & Hrj).
    destruct (decide (i = j)) as [<- | Hne].
    + assert (rj = r) by congruence. subst rj.
      rewrite list_lookup_insert_eq in Hpj
        by (eapply lookup_lt_Some; exact Hpj0).
      injection Hpj as <-.
      apply list_lookup_insert_eq. eapply lookup_lt_Some. exact Hrj.
    + rewrite list_lookup_insert_ne in Hpj by exact Hne.
      rewrite list_lookup_insert_ne.
      * congruence.
      * intros <-. apply Hne. eapply NoDup_lookup; eassumption.
Qed.

(** A product of the inventory is the object itself: when the list of
    the inventory holds no object twice, a successful [actualizar_precio]
    or [actualizar_cantidad] on the object at position [i] changes the
    contents of the inventory at position [i] and nowhere else, and
    [calcular_valor_inventario] then sums over the changed contents. *)
Theorem actualizar_en_inventario
    (w : world) (ps : list Producto) (i r : nat) (p : Producto) (v : value) :
  contents w ps ->
  NoDup (productos w) ->
  productos w !! i = Some r ->
  ps !! i = Some p ->
  (forall p',
      actualizar_precio p v = Ok p' ->
      let w' := mkWorld (<[r := p']> (heap w)) (productos w) (stdout w) in
      call_actualizar_precio r v w = Some (Ok VNone, w')
      /\ contents w' (<[i := p']> ps)
      /\ calcular_valor_inventario float_sum w'
         = Some (obind (valores_de (<[i := p']> ps))
                   (fun xs => Ok (py_sum float_sum xs)), w'))
  /\ (forall p',
      actualizar_cantidad p v = Ok p' ->
      let w' := mkWorld (<[r := p']> (heap w)) (productos w) (stdout w) in
      call_actualizar_cantidad r v w = Some (Ok VNone, w')
      /\ contents w' (<[i := p']> ps)
      /\ calcular_valor_inventario float_sum w'
         = Some (obind (valores_de (<[i := p']> ps))
                   (fun xs => Ok (py_sum float_sum xs)), w')).
Proof.
  intros Hc Hnd Hi Hp.
  assert (Hr : heap w !! r = Some p).
  { destruct (Forall2_lookup_l _ _ _ _ _ Hc Hi) as (p0 & Hp0 & Hr).
    congruence. }
  split; intros p' E w';
    pose proof (contents_insert w ps i r p' Hc Hnd Hi) as Hc';
    (split; [| split; [exact Hc' |]]).
  - rewrite (call_actualizar_precio_eq w r p v Hr), E. reflexivity.
  - apply calcular_valor_inventario_eq, Hc'.
  - rewrite (call_actualizar_cantidad_eq w r p v Hr), E. reflexivity.
  - apply calcular_valor_inventario_eq, Hc'.
Qed.

(** In every store reached from the empty inventory, the list holds no
    object twice and no two positions hold products with the same name up
    to case: a search has at most one product to find. *)
Theorem nombre_unico_alcanzable
    (os : list op) (w : world) (ps : list Producto) :
  run lower float_sum os Inventario_init = Some w ->
  contents w ps ->
  NoDup (productos w)
  /\ forall i j p q,
       ps !! i = Some p -> ps !! j = Some q ->
       lower (nombre p) = lower (nombre q) -> i = j.
Proof.
  intros Hrun Hc.
  destruct (run_invariante lower float_sum os _ _ (invariante_init lower) Hrun)
    as (_ & _ & Hnd).
  split.
  - unfold nombres in Hnd. eapply NoDup_fmap_1. exact Hnd.
  - rewrite (nombres_contents lower w ps Hc) in Hnd.
    intros i j p q Hi Hj Hpq.
    eapply NoDup_lookup; [exact Hnd | |].
    + rewrite list_lookup_fmap, Hi. reflexivity.
    + rewrite list_lookup_fmap, Hj. cbn. rewrite Hpq. reflexivity.
Qed.


Lemma efecto_crece (w w' : world) :
  efecto w w' ->
  productos w `prefix_of` productos w'
  /\ stdout w `prefix_of` stdout w'
  /\ (length (heap w) <= length (heap w'))%nat
  /\ forall r p, heap w !! r = Some p ->
       exists p', heap w' !! r = Some p' /\ nombre p' = nombre p.
Proof.
  intros [| obj | r self self' Hr Hn | r Hr | out]; cbn [heap productos stdout].
  - repeat split; try reflexivity. eauto.
  - repeat split; try reflexivity.
    + rewrite length_app. lia.
    + intros r p Hr. exists p. split; [| reflexivity].
      apply lookup_app_l_Some, Hr.
  - repeat split; try reflexivity.
    + rewrite length_insert. lia.
    + intros r0 p Hr0. destruct (decide (r = r0)) as [<- | Hne].
      * exists self'. split; [| congruence].
        apply list_lookup_insert_eq. eapply lookup_lt_Some. exact Hr.
      * exists p. split; [| reflexivity].
        rewrite list_lookup_insert_ne by exact Hne. exact Hr0.
  - repeat split; try reflexivity; eauto.
    apply prefix_app_r. reflexivity.
  - repeat split; try reflexivity; eauto.
    apply prefix_app_r. reflexivity.
Qed.

(** Nothing is ever removed or renamed. After any sequence of calls the
    list of the inventory and the standard output have grown at their
    ends only, no object has disappeared, and every object has the name
    it had. *)
Theorem run_crece (os : list op) :
  forall w w' : world,
    run lower float_sum os w = Some w' ->
    productos w `prefix_of` productos w'
    /\ stdout w `prefix_of` stdout w'
    /\ (length (heap w) <= length (heap w'))%nat
    /\ forall r p, heap w !! r = Some p ->
         exists p', heap w' !! r = Some p' /\ nombre p' = nombre p.
Proof.
  induction os as [| o os IH]; intros w w' Hrun; cbn [run] in Hrun.
  - injection Hrun as <-. apply efecto_crece, ef_nada.
  - destruct (exec lower float_sum o w) as [[res w1] |] eqn:E; [| discriminate].
    destruct (exec_efecto o w w1 res E) as [Hef _].
    destruct (efecto_crece _ _ Hef) as (H1 & H2 & H3 & H4).
    destruct (IH _ _ Hrun) as (I1 & I2 & I3 & I4).
    split; [etransitivity; eassumption |].
    split; [etransitivity; eassumption |].
    split; [lia |].
    intros r p Hr.
    destruct (H4 r p Hr) as (p1 & Hp1 & Hn1).
    destruct (I4 r p1 Hp1) as (p2 & Hp2 & Hn2).
    exists p2. split; [exact Hp2 | congruence].
Qed.


Lemma buscar_loop_ext (q1 q2 : str) (rs : list nat) (w : world) :
  lower q1 = lower q2 ->
  buscar_loop lower q1 rs w = buscar_loop lower q2 rs w.
Proof.
  intros Hq. induction rs as [| r rs IH]; cbn [buscar_loop].
  - reflexivity.
  - unfold bind, get_obj.
    destruct (heap w !! r) as [p |]; [| reflexivity].
    unfold same_name. rewrite Hq.
    destruct (bool_decide (lower (nombre p) = lower q2)); [reflexivity |].
    exact IH.
Qed.

(** A search depends on its query only through the lowered trimmed
    text: two queries that differ in surrounding white space or in case
    have the same outcome. *)
Theorem buscar_producto_insensible (s1 s2 : str) (w : world) :
  strip s1 <> [] ->
  strip s2 <> [] ->
  lower (strip s1) = lower (strip s2) ->
  buscar_producto lower (VStr s1) w = buscar_producto lower (VStr s2) w.
Proof.
  intros H1 H2 Hq. unfold buscar_producto.
  apply str_truth_true in H1, H2. rewrite H1, H2. cbn [negb].
  unfold bind, get_productos.
  apply buscar_loop_ext, Hq.
Qed.

End Composicion.

(** ** The menu *)

Section PropiedadesMenu.

Variable lower : str -> str.
Variable float_sum : list float -> float.
Variable float_de_str : str -> outcome float.
Variable int_de_str : str -> outcome Z.

Ltac partes := split; [| split; [| split; [| split]]].

Lemma crece_refl (w : world) : crece w w.
Proof. repeat split; auto. Qed.

Lemma crece_trans (w1 w2 w3 : world) :
  crece w1 w2 -> crece w2 w3 -> crece w1 w3.
Proof.
  intros (A1 & A2 & A3) (B1 & B2 & B3).
  repeat split; [etransitivity; eassumption .. | auto].
Qed.

Lemma efecto_es_crece (w w' : world) : efecto w w' -> crece w w'.
Proof.
  intros H. destruct (efecto_crece w w' H) as (H1 & H2 & _ & H4).
  repeat split; [assumption .. |].
  intros r [p Hp]. destruct (H4 r p Hp) as (p' & Hp' & _). eauto.
Qed.

Lemma crece_stdout (w : world) (out : list str) :
  crece w (mkWorld (heap w) (productos w) (stdout w ++ out)).
Proof. apply efecto_es_crece, ef_print. Qed.

Lemma invariante_stdout (w : world) (out : list str) :
  invariante lower w ->
  invariante lower (mkWorld (heap w) (productos w) out).
Proof. intros H. exact H. Qed.

(** Every call keeps the invariant and makes the store grow. *)
Lemma exec_seguro (o : op) (w w' : world) (res : outcome value) :
  invariante lower w ->
  exec lower float_sum o w = Some (res, w') ->
  invariante lower w' /\ crece w w'.
Proof.
  intros Hinv He. split.
  - eapply exec_invariante; eassumption.
  - apply efecto_es_crece. eapply exec_efecto. exact He.
Qed.

(** *** Rules *)

Lemma triple_ret {A} (P : world -> Prop) (a : A)
    (Q : A -> world -> Prop) (E : exn -> Prop) :
  (forall w, P w -> Q a w) ->
  triple lower P (retI a) Q E.
Proof.
  intros H entrada w Hinv HP. exists (Valor a), entrada, w.
  partes; [reflexivity | exact Hinv | apply crece_refl | reflexivity | auto].
Qed.

Lemma triple_bind {A B} (P : world -> Prop) (m : IO A) (k : A -> IO B)
    (Q : A -> world -> Prop) (Q' : B -> world -> Prop) (E : exn -> Prop) :
  triple lower P m Q E ->
  (forall a, triple lower (Q a) (k a) Q' E) ->
  triple lower P (bindI m k) Q' E.
Proof.
  intros Hm Hk entrada w Hinv HP.
  destruct (Hm entrada w Hinv HP)
    as (res & e1 & w1 & Hres & Hinv1 & Hc1 & Hs1 & Hpost).
  unfold bindI. rewrite Hres.
  destruct res as [a | e |].
  - destruct (Hk a e1 w1 Hinv1 Hpost)
      as (res2 & e2 & w2 & Hres2 & Hinv2 & Hc2 & Hs2 & Hpost2).
    exists res2, e2, w2.
    partes; [exact Hres2 | exact Hinv2 | apply (crece_trans _ _ _ Hc1 Hc2)
            | etransitivity; eassumption | exact Hpost2].
  - exists (Lanza e), e1, w1. partes; (reflexivity || assumption).
  - exists FinDeEntrada, e1, w1. partes; (reflexivity || assumption).
Qed.

Lemma triple_conseq {A} (P P' : world -> Prop) (m : IO A)
    (Q Q' : A -> world -> Prop) (E E' : exn -> Prop) :
  triple lower P m Q E ->
  (forall w, P' w -> P w) ->
  (forall a w, Q a w -> Q' a w) ->
  (forall e, E e -> E' e) ->
  triple lower P' m Q' E'.
Proof.
  intros Hm HP HQ HE entrada w Hinv HP'.
  destruct (Hm entrada w Hinv (HP w HP'))
    as (res & e1 & w1 & Hres & Hinv1 & Hc1 & Hs1 & Hpost).
  exists res, e1, w1. partes; try assumption.
  destruct res; auto.
Qed.

Lemma triple_atrapar {A} (P : world -> Prop) (clases : exn -> bool)
    (m : IO A) (h : exn -> IO A)
    (Q : A -> world -> Prop) (E E' : exn -> Prop) :
  triple lower P m Q E ->
  (forall e, E e -> clases e = true ->
             triple lower (fun _ => True) (h e) Q E') ->
  (forall e, E e -> clases e = false -> E' e) ->
  triple lower P (atrapar clases m h) Q E'.
Proof.
  intros Hm Hh HE entrada w Hinv HP.
  destruct (Hm entrada w Hinv HP)
    as (res & e1 & w1 & Hres & Hinv1 & Hc1 & Hs1 & Hpost).
  unfold atrapar. rewrite Hres.
  destruct res as [a | e |].
  - exists (Valor a), e1, w1. partes; (reflexivity || assumption).
  - destruct (clases e) eqn:Ec.
    + destruct (Hh e Hpost Ec e1 w1 Hinv1 Logic.I)
        as (res2 & e2 & w2 & Hres2 & Hinv2 & Hc2 & Hs2 & Hpost2).
      exists res2, e2, w2.
      partes; [exact Hres2 | exact Hinv2 | apply (crece_trans _ _ _ Hc1 Hc2)
              | etransitivity; eassumption | exact Hpost2].
    + exists (Lanza e), e1, w1.
      partes; [reflexivity | assumption | assumption | assumption | auto].
  - exists FinDeEntrada, e1, w1. partes; (reflexivity || assumption).
Qed.

Lemma triple_de_M {A} (P : world -> Prop) (c : M A)
    (Q : A -> world -> Prop) (E : exn -> Prop) :
  (forall w, invariante lower w -> P w ->
     exists res w',
       c w = Some (res, w')
       /\ invariante lower w' /\ crece w w'
       /\ match res with Ok a => Q a w' | Raise e => E e end) ->
  triple lower P (de_M c) Q E.
Proof.
  intros Hc entrada w Hinv HP.
  destruct (Hc w Hinv HP) as (res & w' & Hres & Hinv' & Hcr & Hpost).
  unfold de_M. rewrite Hres.
  destruct res as [a | e].
  - exists (Valor a), entrada, w'.
    partes; [reflexivity | assumption | assumption | reflexivity | assumption].
  - exists (Lanza e), entrada, w'.
    partes; [reflexivity | assumption | assumption | reflexivity | assumption].
Qed.

Lemma triple_puro {A} (P : world -> Prop) (H : Prop) (m : IO A)
    (Q : A -> world -> Prop) (E : exn -> Prop) :
  (forall w, P w -> H) ->
  (H -> triple lower P m Q E) ->
  triple lower P m Q E.
Proof.
  intros H1 H2 entrada w Hinv HP. apply (H2 (H1 w HP)); assumption.
Qed.

Lemma triple_imprimir (s : str) (P : world -> Prop) (E : exn -> Prop) :
  triple lower P (imprimir s)
    (fun _ w' => last (stdout w') = Some (s ++ [10%N])) E.
Proof.
  apply triple_de_M. intros w Hinv _.
  eexists (Ok tt), _. split; [reflexivity |].
  split; [apply invariante_stdout, Hinv |].
  split; [apply crece_stdout |].
  cbn [stdout]. apply last_snoc.
Qed.

Lemma triple_imprimir_True (s : str) (P : world -> Prop) (E : exn -> Prop) :
  triple lower P (imprimir s) (fun _ _ => True) E.
Proof.
  eapply triple_conseq; [apply (triple_imprimir s P E) | auto ..].
Qed.

Lemma triple_input (prompt : str) (P : world -> Prop) (E : exn -> Prop) :
  triple lower P (input prompt) (fun _ _ => True) E.
Proof.
  intros entrada w Hinv _. unfold input.
  destruct entrada as [| linea resto].
  - eexists FinDeEntrada, [], _. split; [reflexivity |].
    split; [apply invariante_stdout, Hinv |].
    split; [apply crece_stdout |].
    split; reflexivity.
  - eexists (Valor linea), resto, _. split; [reflexivity |].
    split; [apply invariante_stdout, Hinv |].
    split; [apply crece_stdout |].
    split; [| exact Logic.I].
    exists [linea]. reflexivity.
Qed.

(** *** The calls of the menu *)

Lemma triple_lift {A} (o : outcome A) (P : world -> Prop) (E : exn -> Prop) :
  (forall e, o = Raise e -> E e) ->
  triple lower P (de_M (lift o)) (fun _ _ => True) E.
Proof.
  intros HE. apply triple_de_M. intros w Hinv _.
  exists o, w. split; [reflexivity |].
  split; [exact Hinv |]. split; [apply crece_refl |].
  destruct o; auto.
Qed.

Lemma Producto_init_float_int (n : value) (x : float) (k : Z) (e : exn) :
  Producto_init n (VFloat x) (VInt k) = Raise e ->
  es_ValueError_o_TypeError e = true.
Proof.
  unfold Producto_init.
  destruct (str_truth (limpiar n)); cbn; [| intros [= <-]; reflexivity].
  destruct (fltb x fzero); [intros [= <-]; reflexivity |].
  destruct (k <? 0); [intros [= <-]; reflexivity | discriminate].
Qed.

Lemma triple_Producto_new (n : value) (x : float) (k : Z)
    (P : world -> Prop) (E : exn -> Prop) :
  (forall e, es_ValueError_o_TypeError e = true -> E e) ->
  triple lower P
    (de_M (Producto_new n (VFloat x) (VInt k)))
    (fun v w' => exists r, v = VProducto r /\ is_Some (heap w' !! r)) E.
Proof.
  intros HE. apply triple_de_M. intros w Hinv _.
  destruct (Producto_new n (VFloat x) (VInt k) w) as [[res w'] |] eqn:E0.
  - exists res, w'. split; [reflexivity |].
    destruct (exec_seguro (OpNew n (VFloat x) (VInt k)) w w' res Hinv E0)
      as [Hinv' Hcr].
    split; [exact Hinv' | split; [exact Hcr |]].
    unfold Producto_new, bind, lift, alloc, ret in E0.
    destruct (Producto_init n (VFloat x) (VInt k)) as [obj | e] eqn:Ei;
      injection E0 as <- <-.
    + exists (length (heap w)). split; [reflexivity |].
      cbn [heap]. rewrite lookup_app_r by lia.
      rewrite Nat.sub_diag. cbn. eauto.
    + eapply HE, Producto_init_float_int, Ei.
  - exfalso. unfold Producto_new, bind, lift, alloc, ret in E0.
    destruct (Producto_init n (VFloat x) (VInt k)); discriminate.
Qed.

Lemma invariante_contents (w : world) :
  invariante lower w -> exists ps, contents w ps.
Proof. intros (_ & Hwf & _). apply contents_exists, Hwf. Qed.

Lemma triple_agregar (r : nat) (P : world -> Prop) (E : exn -> Prop) :
  (forall w, P w -> is_Some (heap w !! r)) ->
  (forall e, es_ValueError_o_TypeError e = true -> E e) ->
  triple lower P
    (de_M (agregar_producto lower (VProducto r)))
    (fun _ w' => is_Some (heap w' !! r)) E.
Proof.
  intros HP HE. apply triple_de_M. intros w Hinv Hw.
  destruct (HP w Hw) as [p Hr].
  destruct (invariante_contents w Hinv) as [ps Hc].
  assert (E0 : exists res w',
             agregar_producto lower (VProducto r) w = Some (res, w')
             /\ forall e, res = Raise e -> es_ValueError_o_TypeError e = true).
  { unfold agregar_producto, bind, get_obj, get_productos.
    rewrite Hr, (any_same_name_eq lower w r p _ ps Hr Hc).
    destruct (existsb _ ps).
    - eexists _, _. split; [reflexivity |]. intros e [= <-]. reflexivity.
    - eexists _, _. split; [reflexivity |]. discriminate. }
  destruct E0 as (res & w' & E0 & Hres).
  exists res, w'. split; [exact E0 |].
  destruct (exec_seguro (OpAdd (VProducto r)) w w' res Hinv E0)
    as [Hinv' Hcr].
  split; [exact Hinv' | split; [exact Hcr |]].
  destruct res as [v | e].
  - destruct Hcr as (_ & _ & Hh). apply Hh. eauto.
  - apply HE, Hres. reflexivity.
Qed.

Lemma triple_attr_nombre (r : nat) (P : world -> Prop) (E : exn -> Prop) :
  (forall w, P w -> is_Some (heap w !! r)) ->
  triple lower P (de_M (attr_nombre (VProducto r))) (fun _ _ => True) E.
Proof.
  intros HP. apply triple_de_M. intros w Hinv Hw.
  destruct (HP w Hw) as [p Hr].
  exists (Ok (nombre p)), w. split.
  - unfold attr_nombre, bind, get_obj, ret. rewrite Hr. reflexivity.
  - split; [exact Hinv |]. split; [apply crece_refl | exact Logic.I].
Qed.

Lemma triple_formato_producto (r : nat) (P : world -> Prop) (E : exn -> Prop) :
  (forall w, P w -> is_Some (heap w !! r)) ->
  triple lower P (de_M (formato_producto (VProducto r))) (fun _ _ => True) E.
Proof.
  intros HP. apply triple_de_M. intros w Hinv Hw.
  destruct (HP w Hw) as [p Hr].
  exists (Ok (Producto_str p)), w. split.
  - unfold formato_producto, bind, get_obj, ret. rewrite Hr. reflexivity.
  - split; [exact Hinv |]. split; [apply crece_refl | exact Logic.I].
Qed.

Lemma triple_buscar (s : str) (P : world -> Prop) (E : exn -> Prop) :
  (forall e, es_ValueError e = true -> E e) ->
  triple lower P
    (de_M (buscar_producto lower (VStr s)))
    (fun v w' =>
       v = VNone \/ exists r, v = VProducto r /\ is_Some (heap w' !! r)) E.
Proof.
  intros HE. apply triple_de_M. intros w Hinv _.
  destruct (invariante_contents w Hinv) as [ps Hc].
  unfold buscar_producto.
  destruct (str_truth (strip s)); cbn [negb].
  - unfold bind, get_productos.
    destruct (buscar_loop_eq lower w (strip s) _ ps Hc)
      as (res & Hres & Hcase).
    exists (Ok res), w. split; [exact Hres |].
    split; [exact Hinv |]. split; [apply crece_refl |].
    destruct Hcase as [[-> _] | (i & r & p & -> & Hi & Hp & _)].
    + left. reflexivity.
    + right. exists r. split; [reflexivity |].
      destruct (Forall2_lookup_l _ _ _ _ _ Hc Hi) as (p0 & _ & Hr). eauto.
  - eexists (Raise _), w. split; [reflexivity |].
    split; [exact Hinv |]. split; [apply crece_refl |].
    apply HE. reflexivity.
Qed.

Lemma valores_de_raise (ps : list Producto) (e : exn) :
  valores_de ps = Raise e -> e = desborde.
Proof.
  induction ps as [| p ps IH]; cbn [valores_de]; [discriminate |].
  destruct (calcular_valor_total p) as [x | e0] eqn:E0; cbn [obind].
  - destruct (valores_de ps) as [xs | e1]; cbn [obind]; [discriminate |].
    intros [= <-]. apply IH. reflexivity.
  - intros [= <-]. eapply calcular_valor_total_raise, E0.
Qed.

Lemma triple_total (P : world -> Prop) (E : exn -> Prop) :
  E desborde ->
  triple lower P
    (de_M (calcular_valor_inventario float_sum))
    (fun v _ => isinstance_int_float v = true) E.
Proof.
  intros HE. apply triple_de_M. intros w Hinv _.
  destruct (invariante_contents w Hinv) as [ps Hc].
  eexists _, w.
  split; [apply (calcular_valor_inventario_eq float_sum w ps Hc) |].
  split; [exact Hinv |]. split; [apply crece_refl |].
  destruct (valores_de ps) as [xs | e] eqn:E0; cbn [obind].
  - destruct xs; reflexivity.
  - rewrite (valores_de_raise _ _ E0). exact HE.
Qed.

Lemma triple_formato_total (v : value) (P : world -> Prop) (E : exn -> Prop) :
  (forall w, P w -> isinstance_int_float v = true) ->
  E desborde ->
  triple lower P (de_M (formato_total v)) (fun _ _ => True) E.
Proof.
  intros HP HE. apply triple_de_M. intros w Hinv Hw.
  pose proof (HP w Hw) as Hv.
  unfold formato_total. rewrite Hv. unfold bind, lift, ret.
  destruct (to_float_outcome v Hv) as [[x ->] | ->].
  - eexists (Ok _), w. split; [reflexivity |].
    split; [exact Hinv |]. split; [apply crece_refl | exact Logic.I].
  - eexists (Raise _), w. split; [reflexivity |].
    split; [exact Hinv |]. split; [apply crece_refl | exact HE].
Qed.

Lemma triple_listar (P : world -> Prop) (E : exn -> Prop) :
  triple lower P (de_M listar_productos) (fun _ _ => True) E.
Proof.
  apply triple_de_M. intros w Hinv _.
  destruct (invariante_contents w Hinv) as [ps Hc].
  pose proof (listar_productos_eq w ps Hc) as H.
  eexists (Ok VNone), _. split; [exact H |].
  destruct (exec_seguro OpList w _ _ Hinv H) as [Hinv' Hcr].
  split; [exact Hinv' |]. split; [exact Hcr | exact Logic.I].
Qed.

(** *** The branches *)

Lemma triple_opcion_1 (P : world -> Prop) :
  triple lower P
    (opcion_1 lower float_de_str int_de_str)
    (fun _ _ => True) (escapa float_de_str int_de_str).
Proof.
  unfold opcion_1.
  set (Eb := fun e => es_ValueError_o_TypeError e = true
                      \/ escapa float_de_str int_de_str e).
  assert (Hparse : forall e,
             (exists s, float_de_str s = Raise e \/ int_de_str s = Raise e) ->
             Eb e).
  { intros e Hs. unfold Eb, escapa.
    destruct (es_ValueError_o_TypeError e) eqn:Ec; auto. }
  apply (triple_atrapar _ _ _ _ _ Eb).
  - eapply triple_bind; [apply triple_input |]. intros l1. cbv beta zeta.
    eapply triple_bind; [apply triple_input |]. intros l2.
    eapply triple_bind.
    { apply triple_lift. intros e He. apply Hparse. eauto. }
    intros x.
    eapply triple_bind; [apply triple_input |]. intros l3.
    eapply triple_bind.
    { apply triple_lift. intros e He. apply Hparse. eauto. }
    intros k.
    eapply triple_bind.
    { apply triple_Producto_new. intros e He. left. exact He. }
    intros v.
    apply (triple_puro _ (exists r, v = VProducto r)).
    { intros w (r & -> & _). eauto. }
    intros [r ->].
    eapply triple_bind.
    { apply triple_agregar.
      - intros w (r0 & [= <-] & Hr). exact Hr.
      - intros e He. left. exact He. }
    intros ?.
    eapply triple_bind.
    { apply triple_attr_nombre. intros w Hr. exact Hr. }
    intros n. apply triple_imprimir_True.
  - intros e _ _. apply triple_imprimir_True.
  - intros e [He | He] Hc; [congruence | exact He].
Qed.

Lemma triple_opcion_2 (P : world -> Prop) :
  triple lower P (opcion_2 lower)
    (fun _ _ => True) (escapa float_de_str int_de_str).
Proof.
  unfold opcion_2.
  apply (triple_atrapar _ _ _ _ _ (fun e => es_ValueError e = true)).
  - eapply triple_bind; [apply triple_input |]. intros l. cbv beta zeta.
    eapply triple_bind; [apply triple_buscar; auto |].
    intros v.
    apply (triple_puro _ (v = VNone \/ exists r, v = VProducto r)).
    { intros w [-> | (r & -> & _)]; eauto. }
    intros [-> | [r ->]].
    + apply triple_imprimir_True.
    + eapply triple_bind.
      { apply triple_formato_producto.
        intros w [Hv | (r0 & [= <-] & Hr)]; [discriminate | exact Hr]. }
      intros s. apply triple_imprimir_True.
  - intros e _ _. apply triple_imprimir_True.
  - intros e He Hc. congruence.
Qed.

Lemma triple_opcion_4 (P : world -> Prop) :
  triple lower P (opcion_4 float_sum)
    (fun _ _ => True) (escapa float_de_str int_de_str).
Proof.
  unfold opcion_4.
  assert (HE : escapa float_de_str int_de_str desborde)
    by (left; reflexivity).
  eapply triple_bind; [apply triple_total, HE |].
  intros v.
  eapply triple_bind.
  { apply triple_formato_total; [| exact HE]. intros w Hv. exact Hv. }
  intros s. apply triple_imprimir_True.
Qed.

Lemma triple_continua {A} (m : IO A) (P : world -> Prop) :
  triple lower P m (fun _ _ => True) (escapa float_de_str int_de_str) ->
  triple lower P (let+ _ := m in retI Continua)
    (fun p w' => p = Sale -> last (stdout w') = Some despedida)
    (escapa float_de_str int_de_str).
Proof.
  intros Hm. eapply triple_bind; [exact Hm |].
  intros ?. apply triple_ret. discriminate.
Qed.

Lemma triple_elegir (opc : str) (P : world -> Prop) :
  triple lower P
    (elegir lower float_sum float_de_str int_de_str opc)
    (fun p w' => p = Sale -> last (stdout w') = Some despedida)
    (escapa float_de_str int_de_str).
Proof.
  unfold elegir.
  destruct (negb _);
    [apply triple_continua; apply triple_imprimir_True |].
  destruct (bool_decide (opc = lit "1"));
    [apply triple_continua; apply triple_opcion_1 |].
  destruct (bool_decide (opc = lit "2"));
    [apply triple_continua; apply triple_opcion_2 |].
  destruct (bool_decide (opc = lit "3"));
    [apply triple_continua; apply triple_listar |].
  destruct (bool_decide (opc = lit "4"));
    [apply triple_continua; apply triple_opcion_4 |].
  destruct (bool_decide (opc = lit "5")).
  - eapply triple_bind; [apply triple_imprimir |].
    intros ?. apply triple_ret. intros w Hw _. exact Hw.
  - apply triple_ret. discriminate.
Qed.

Lemma iteracion_nil (w : world) :
  iteracion lower float_sum float_de_str int_de_str [] w
  = Some (FinDeEntrada, [],
          mkWorld (heap w) (productos w)
            (stdout w ++ [menu_texto ++ [10%N]]
               ++ [texto "Seleccione una opción (1-5): "])).
Proof.
  unfold iteracion, bindI, imprimir, de_M, print, input.
  cbn [heap productos stdout]. rewrite <- app_assoc. reflexivity.
Qed.

Lemma iteracion_cons (linea : str) (resto : list str) (w : world) :
  iteracion lower float_sum float_de_str int_de_str (linea :: resto) w
  = elegir lower float_sum float_de_str int_de_str (strip linea) resto
      (mkWorld (heap w) (productos w)
         (stdout w ++ [menu_texto ++ [10%N]]
            ++ [texto "Seleccione una opción (1-5): "])).
Proof.
  unfold iteracion, bindI, imprimir, de_M, print, input.
  cbn [heap productos stdout]. rewrite <- app_assoc. reflexivity.
Qed.

(** With more iterations allowed than there are lines, the loop ends:
    by [break], after it has taken leave; by [EOFError], at the end of
    the input; or by an exception that escapes. *)
Lemma menu_loop_seguro (n : nat) :
  forall (entrada : list str) (w : world),
    (length entrada < n)%nat ->
    invariante lower w ->
    exists res entrada' w',
      menu_loop lower float_sum float_de_str int_de_str n entrada w
        = Some (res, entrada', w')
      /\ invariante lower w'
      /\ crece w w'
      /\ entrada' `suffix_of` entrada
      /\ match res with
         | Valor _ => last (stdout w') = Some despedida
         | Lanza e => escapa float_de_str int_de_str e
         | FinDeEntrada => entrada' = []
         end.
Proof.
  induction n as [| n IH]; intros entrada w Hlen Hinv; [lia |].
  cbn [menu_loop]. unfold bindI at 1.
  destruct entrada as [| linea resto].
  - rewrite iteracion_nil.
    eexists FinDeEntrada, [], _. split; [reflexivity |].
    split; [apply invariante_stdout, Hinv |].
    split; [apply crece_stdout |].
    split; reflexivity.
  - rewrite iteracion_cons.
    set (w0 := mkWorld (heap w) (productos w) _).
    assert (Hinv0 : invariante lower w0) by (apply invariante_stdout, Hinv).
    assert (Hc0 : crece w w0) by apply crece_stdout.
    destruct (triple_elegir (strip linea) (fun _ => True) resto w0 Hinv0 Logic.I)
      as (res & e1 & w1 & Hres & Hinv1 & Hc1 & Hs1 & Hpost).
    rewrite Hres.
    assert (Hs : e1 `suffix_of` linea :: resto).
    { etransitivity; [exact Hs1 |]. exists [linea]. reflexivity. }
    destruct res as [[] | e |].
    + assert (Hlen1 : (length e1 < n)%nat).
      { apply suffix_length in Hs1. cbn [length] in Hlen. lia. }
      destruct (IH e1 w1 Hlen1 Hinv1)
        as (res2 & e2 & w2 & Hres2 & Hinv2 & Hc2 & Hs2 & Hpost2).
      exists res2, e2, w2. split; [exact Hres2 |].
      split; [exact Hinv2 |].
      split; [exact (crece_trans _ _ _ Hc0 (crece_trans _ _ _ Hc1 Hc2)) |].
      split; [etransitivity; eassumption | exact Hpost2].
    + exists (Valor tt), e1, w1. split; [reflexivity |].
      split; [exact Hinv1 |].
      split; [exact (crece_trans _ _ _ Hc0 Hc1) |].
      split; [exact Hs | apply Hpost; reflexivity].
    + exists (Lanza e), e1, w1. split; [reflexivity |].
      split; [exact Hinv1 |].
      split; [exact (crece_trans _ _ _ Hc0 Hc1) |].
      split; [exact Hs | exact Hpost].
    + exists FinDeEntrada, e1, w1. split; [reflexivity |].
      split; [exact Hinv1 |].
      split; [exact (crece_trans _ _ _ Hc0 Hc1) |].
      split; [exact Hs | exact Hpost].
Qed.

(** Whatever is typed, [menu_principal] ends, with a result of the
    model; the store it leaves satisfies the invariant of the inventory,
    the list of the inventory and the standard output have grown at
    their ends, no object has disappeared, and the lines left unread are
    the last lines of the input. *)
Theorem menu_principal_termina (entrada : list str) (w : world) :
  invariante lower w ->
  exists res entrada' w',
    menu_principal lower float_sum float_de_str int_de_str entrada w
      = Some (res, entrada', w')
    /\ invariante lower w'
    /\ crece w w'
    /\ entrada' `suffix_of` entrada.
Proof.
  intros Hinv. unfold menu_principal.
  destruct (menu_loop_seguro (S (length entrada)) entrada w
              (Nat.lt_succ_diag_r _) Hinv)
    as (res & e1 & w1 & Hres & Hinv1 & Hc1 & Hs1 & _).
  exists res, e1, w1.
  split; [exact Hres | split; [exact Hinv1 | split; assumption]].
Qed.


End PropiedadesMenu.

Section OpcionUno.

Variable lower : str -> str.
Variable float_de_str : str -> outcome float.
Variable int_de_str : str -> outcome Z.

(** The first option on three lines that hold a new name, a price and a
    quantity that pass every test: after its three prompts, the menu
    builds the product from the trimmed name, the float and the integer,
    appends it to the inventory and reports it under its trimmed name;
    the lines that follow are left to be read. *)
Theorem opcion_1_agrega
    (w : world) (ps : list Producto) (l1 l2 l3 : str) (resto : list str)
    (x : float) (k : Z) :
  contents w ps ->
  strip l1 <> [] ->
  float_de_str (strip l2) = Ok x ->
  fltb x fzero = false ->
  int_de_str (strip l3) = Ok k ->
  0 <= k ->
  (forall q, q ∈ ps -> lower (nombre q) <> lower (strip l1)) ->
  opcion_1 lower float_de_str int_de_str (l1 :: l2 :: l3 :: resto) w
  = Some (Valor tt, resto,
          mkWorld (heap w ++ [mkProducto (strip l1) x (PInt k)])
            (productos w ++ [length (heap w)])
            (stdout w
               ++ [lit "Ingrese el nombre del producto: ";
                   lit "Ingrese el precio del producto: ";
                   lit "Ingrese la cantidad del producto: ";
                   lit "Producto '" ++ strip l1
                     ++ lit "' agregado al inventario." ++ [10%N; 10%N]])).
Proof.
  intros Hc Hs Hx Hx0 Hk Hk0 Hnew.
  set (obj := mkProducto (strip l1) x (PInt k)).
  set (out3 := ((stdout w ++ [lit "Ingrese el nombre del producto: "])
                  ++ [lit "Ingrese el precio del producto: "])
                 ++ [lit "Ingrese la cantidad del producto: "]).
  set (w3 := mkWorld (heap w) (productos w) out3).
  set (w4 := mkWorld (heap w ++ [obj]) (productos w) out3).
  set (w5 := mkWorld (heap w ++ [obj]) (productos w ++ [length (heap w)]) out3).
  assert (Hnew4 : Producto_new (VStr (strip l1)) (VFloat x) (VInt k) w3
                  = Some (Ok (VProducto (length (heap w))), w4)).
  { unfold Producto_new, bind, lift, alloc, ret.
    rewrite (Producto_init_ok (VStr (strip l1)) (VFloat x) (VInt k) x (PInt k));
      cbn [limpiar]; rewrite ?strip_idem; try reflexivity; try assumption.
    apply str_truth_true, Hs. }
  assert (Hr4 : heap w4 !! length (heap w) = Some obj).
  { subst w4. cbn [heap]. rewrite lookup_app_r by lia.
    rewrite Nat.sub_diag. reflexivity. }
  assert (Hc4 : contents w4 ps).
  { unfold contents in *. subst w4. cbn [heap productos].
    eapply Forall2_impl; [exact Hc |].
    intros r q Hr. apply lookup_app_l_Some, Hr. }
  assert (Hadd : agregar_producto lower (VProducto (length (heap w))) w4
                 = Some (Ok VNone, w5)).
  { unfold agregar_producto, bind, get_obj, get_productos.
    rewrite Hr4, (any_same_name_eq lower w4 _ obj _ ps Hr4 Hc4).
    assert (Hno : existsb (fun q => same_name lower (nombre q) (nombre obj)) ps
                  = false).
    { apply not_true_is_false. intros Hex.
      apply existsb_same_name in Hex. destruct Hex as (q & Hin & Hq).
      exact (Hnew q Hin Hq). }
    rewrite Hno. reflexivity. }
  assert (Hn : attr_nombre (VProducto (length (heap w))) w5
               = Some (Ok (strip l1), w5)).
  { unfold attr_nombre, bind, get_obj, ret.
    change (heap w5) with (heap w4). rewrite Hr4. reflexivity. }
  unfold opcion_1, atrapar, bindI, input.
  cbn [heap productos stdout].
  fold out3. fold w3.
  unfold de_M at 1. unfold lift at 1. rewrite Hx.
  cbn [heap productos stdout].
  unfold de_M at 1. unfold lift at 1. rewrite Hk.
  cbn [heap productos stdout]. fold out3. fold w3.
  unfold de_M at 1. rewrite Hnew4.
  unfold de_M at 1. rewrite Hadd.
  unfold de_M at 1. rewrite Hn.
  unfold imprimir, de_M, print. subst w5 out3.
  cbn [heap productos stdout].
  rewrite <- !app_assoc. cbn [app]. reflexivity.
Qed.

End OpcionUno.

(** ** Integers within the range of doubles *)

Lemma digits2_pos_lt (m : positive) :
  Zpos m < 2 ^ Zpos (digits2_pos m).
Proof.
  induction m as [m IH | m IH |]; cbn [digits2_pos].
  - rewrite Pos2Z.inj_succ, Z.pow_succ_r by lia. lia.
  - rewrite Pos2Z.inj_succ, Z.pow_succ_r by lia. lia.
  - reflexivity.
Qed.

Lemma digits2_pos_upper (m : positive) (b : Z) :
  Zpos m < 2 ^ b -> Zpos (digits2_pos m) <= b.
Proof.
  intros H. pose proof (digits2_pos_le m) as Hd.
  destruct (Z.le_gt_cases (Zpos (digits2_pos m)) b) as [Hle | Hgt];
    [exact Hle |].
  exfalso.
  assert (2 ^ b <= 2 ^ (Zpos (digits2_pos m) - 1))
    by (apply Z.pow_le_mono_r; lia).
  lia.
Qed.

Lemma iter_xO (d m : positive) :
  Zpos (Pos.iter xO m d) = Zpos m * 2 ^ Zpos d.
Proof.
  apply (Pos.iter_ind _ xO m (fun p a => Zpos a = Zpos m * 2 ^ Zpos p)).
  - rewrite Pos2Z.inj_xO. lia.
  - intros p a IH.
    rewrite Pos2Z.inj_succ, Z.pow_succ_r by lia.
    rewrite Pos2Z.inj_xO. lia.
Qed.

Lemma round_nearest_even_le (m : Z) (l : location) :
  round_nearest_even m l <= m + 1.
Proof.
  destruct l as [| []]; cbn [round_nearest_even]; try lia.
  destruct (Z.even m); lia.
Qed.

(** The shift that rounding applies to a number below [2 ^ D] leaves an
    exponent of at most [D - 53], when it moves the exponent at all, and
    a mantissa that still stands for a number below [2 ^ D]. *)
Lemma shr_fexp_cota (m : positive) (e D : Z) (l : location) :
  emin prec emax <= e ->
  Zpos m < 2 ^ (D - e) ->
  snd (shr_fexp prec emax (Zpos m) e l) <= Z.max e (D - 53)
  /\ shr_m (fst (shr_fexp prec emax (Zpos m) e l))
     < 2 ^ (D - snd (shr_fexp prec emax (Zpos m) e l)).
Proof.
  intros He Hm. unfold shr_fexp, shr. cbn [Zdigits2].
  pose proof (digits2_pos_upper m _ Hm) as Hd.
  pose proof (digits2_pos_lt m) as Hlt.
  destruct (fexp prec emax (Zpos (digits2_pos m) + e) - e) as [| p | p] eqn:En;
    cbn [fst snd]; rewrite ?shr_m_of_loc; try (split; [lia | exact Hm]).
  assert (Hp : Zpos p = Zpos (digits2_pos m) - 53).
  { unfold fexp, emin, prec, emax in *. lia. }
  split; [lia |].
  rewrite shr_m_iter by (rewrite shr_m_of_loc; lia).
  rewrite shr_m_of_loc.
  assert (H53 : Zpos m / 2 ^ Zpos p < 2 ^ 53).
  { apply Z.div_lt_upper_bound; [apply Z.pow_pos_nonneg; lia |].
    rewrite <- Z.pow_add_r by lia.
    replace (Zpos p + 53) with (Zpos (digits2_pos m)) by lia.
    exact Hlt. }
  assert (2 ^ 53 <= 2 ^ (D - (e + Zpos p)))
    by (apply Z.pow_le_mono_r; lia).
  lia.
Qed.

(** A positive mantissa that stands for a number below [2 ^ 1023] rounds
    to a finite float. *)
Lemma binary_round_aux_finito
    (s : bool) (m : positive) (e D : Z) (l : location) :
  emin prec emax <= e ->
  e <= 971 ->
  D <= 1023 ->
  Zpos m < 2 ^ (D - e) ->
  exists m' e', binary_round_aux prec emax s (Zpos m) e l = S754_finite s m' e'.
Proof.
  intros He He' HD Hm. unfold binary_round_aux.
  pose proof (shr_fexp_pos m e l He) as H1.
  pose proof (shr_fexp_exp (Zpos m) e l) as E1.
  destruct (shr_fexp_cota m e D l He Hm) as [B1 B2].
  destruct (shr_fexp prec emax (Zpos m) e l) as [mrs1 e1].
  cbn [fst snd] in H1, E1, B1, B2.
  pose proof (round_nearest_even_ge (shr_m mrs1) (loc_of_shr_record mrs1)) as H2.
  pose proof (round_nearest_even_le (shr_m mrs1) (loc_of_shr_record mrs1)) as H2'.
  destruct (round_nearest_even (shr_m mrs1) (loc_of_shr_record mrs1))
    as [| m2 | m2]; try lia.
  assert (He1 : emin prec emax <= e1) by lia.
  assert (Hm2 : Zpos m2 < 2 ^ (D + 1 - e1)).
  { replace (D + 1 - e1) with (Z.succ (D - e1)) by lia.
    assert (0 <= D - e1).
    { destruct (Z.le_gt_cases 0 (D - e1)) as [Hle | Hgt]; [exact Hle |].
      rewrite Z.pow_neg_r in B2 by lia. lia. }
    rewrite Z.pow_succ_r by assumption. lia. }
  pose proof (shr_fexp_pos m2 e1 loc_Exact He1) as H3.
  destruct (shr_fexp_cota m2 e1 (D + 1) loc_Exact He1 Hm2) as [B3 _].
  destruct (shr_fexp prec emax (Zpos m2) e1 loc_Exact) as [mrs2 e2].
  cbn [fst snd] in H3, B3.
  destruct (shr_m mrs2) as [| m3 | m3]; try lia.
  destruct (Z.leb_spec e2 (emax - prec)) as [Hle | Hgt]; [eauto |].
  exfalso. unfold emax, prec in Hgt. lia.
Qed.

Lemma binary_round_finito (s : bool) (m : positive) :
  Zpos m < 2 ^ 1023 ->
  exists m' e', binary_round prec emax s m 0 = S754_finite s m' e'.
Proof.
  intros Hm. unfold binary_round, shl_align.
  destruct (fexp prec emax (Zpos (digits2_pos m) + 0) - 0) as [| d | d] eqn:Ed.
  - apply (binary_round_aux_finito s m 0 1023);
      [unfold emin, prec, emax; lia | lia | lia | exact Hm].
  - apply (binary_round_aux_finito s m 0 1023);
      [unfold emin, prec, emax; lia | lia | lia | exact Hm].
  - assert (Hf : fexp prec emax (Zpos (digits2_pos m) + 0) = Zneg d) by lia.
    rewrite Hf.
    apply (binary_round_aux_finito s _ (Zneg d) 1023).
    + rewrite <- Hf. unfold fexp. lia.
    + lia.
    + lia.
    + rewrite iter_xO.
      replace (1023 - Zneg d) with (1023 + Zpos d) by lia.
      rewrite Z.pow_add_r by lia.
      apply Z.mul_lt_mono_pos_r; [apply Z.pow_pos_nonneg; lia | exact Hm].
Qed.

(** [float(n)] returns for every integer between [-2 ** 1023] and
    [2 ** 1023]. *)
Lemma float_of_int_finito (n : Z) :
  Z.abs n < 2 ^ 1023 -> exists x, float_of_int n = Ok x.
Proof.
  intros Hn. unfold float_of_int.
  destruct n as [| m | m]; cbn [binary_normalize].
  - eauto.
  - destruct (binary_round_finito false m) as (m' & e' & ->); [lia | eauto].
  - destruct (binary_round_finito true m) as (m' & e' & ->); [lia | eauto].
Qed.

Section SinDesborde.

Variable float_sum : list float -> float.

(** On quantities between [-2 ** 1023] and [2 ** 1023], hence on every
    quantity below [2 ** 1023] that the constructor and
    [actualizar_cantidad] store, [calcular_valor_total] returns, and
    [calcular_valor_inventario] returns the sum of the values of the
    products, without raising [OverflowError]. *)
Theorem calcular_valor_inventario_sin_desborde
    (w : world) (ps : list Producto) :
  contents w ps ->
  Forall (fun p => Z.abs (int_value (cantidad p)) < 2 ^ 1023) ps ->
  Forall (fun p => exists x, calcular_valor_total p = Ok x) ps
  /\ exists xs,
       valores_de ps = Ok xs
       /\ length xs = length ps
       /\ calcular_valor_inventario float_sum w
          = Some (Ok (py_sum float_sum xs), w).
Proof.
  intros Hc Hq.
  assert (Ht : Forall (fun p => exists x, calcular_valor_total p = Ok x) ps).
  { eapply Forall_impl; [exact Hq |].
    intros p Hp. unfold calcular_valor_total, float_times.
    destruct (float_of_int_finito _ Hp) as [y ->]. cbn [obind]. eauto. }
  split; [exact Ht |].
  assert (Hv : exists xs, valores_de ps = Ok xs /\ length xs = length ps).
  { clear Hc Hq. induction Ht as [| p ps [x Hx] _ (xs & IH & Hlen)];
      cbn [valores_de].
    - exists []. split; reflexivity.
    - rewrite Hx, IH. cbn [obind]. exists (x :: xs).
      split; [reflexivity | cbn [length]; congruence]. }
  destruct Hv as (xs & Hxs & Hlen).
  exists xs. split; [exact Hxs | split; [exact Hlen |]].
  rewrite (calcular_valor_inventario_eq float_sum w ps Hc), Hxs.
  reflexivity.
Qed.

End SinDesborde.

(** On an integer price between [-2 ** 1023] and [2 ** 1023] the tests
    on the price behave as on the integer itself: with a valid name and
    a valid quantity the constructor builds the product when the price
    is not negative and raises the [ValueError] of the negative price
    when it is, and so does [actualizar_precio]; neither raises
    [OverflowError]. *)
Theorem precio_entero_sin_desborde (n : Z) :
  Z.abs n < 2 ^ 1023 ->
  exists x,
    to_float (VInt n) = Ok x
    /\ (forall nombre c k,
          str_truth (limpiar nombre) = true ->
          as_int c = Some k ->
          0 <= int_value k ->
          Producto_init nombre (VInt n) c
          = if n <? 0 then Raise (ValueError Msg.precio_negativo)
            else Ok (mkProducto (limpiar nombre) x k))
    /\ (forall self,
          actualizar_precio self (VInt n)
          = if n <? 0 then Raise (ValueError Msg.precio_negativo)
            else Ok (mkProducto (nombre self) x (cantidad self))).
Proof.
  intros Hn. destruct (float_of_int_finito n Hn) as [x Hx].
  exists x. split; [exact Hx |].
  assert (Hsign : fltb x fzero = (n <? 0)).
  { destruct (Z.ltb_spec n 0) as [Hneg | Hpos].
    - eapply float_of_int_negative; eassumption.
    - eapply float_of_int_nonneg; eassumption. }
  split.
  - intros nombre c k Hs Hk Hk0.
    destruct (n <? 0) eqn:E.
    + apply (Producto_init_precio_negativo nombre (VInt n) c x); assumption.
    + apply Producto_init_ok; assumption.
  - intros self. unfold actualizar_precio. cbn [isinstance_int_float
      isinstance_int as_int negb].
    change (to_float (VInt n)) with (float_of_int n). rewrite Hx.
    cbn [obind]. rewrite Hsign. reflexivity.
Qed.

(** * The model at work

    The theorems above at concrete arguments, with [str.lower] and [sum]
    taken on ASCII names and by left-to-right addition, and the inputs on
    which the statements of the specification fail. *)

Example ej_floats_validos :
  forallb valid_float
    [fzero; fone; fnan; f_1_5; f_2; f_150; SFopp f_1_5;
     S754_finite false 4503599627370496 1;
     S754_finite false 7036874417766400 (-45)]
  = true.
Proof. vm_compute. reflexivity. Qed.

Example ej_mundo_alcanzable :
  run ascii_lower left_sum ej_programa Inventario_init = Some ej_mundo.
Proof. vm_compute. reflexivity. Qed.

Lemma ej_contents : contents ej_mundo [ej_pen].
Proof. repeat constructor. Defined.

(** C1 at [Producto(" Pen ", 1.5, 100)] on the empty store: the product
    is built and its total value is 150.0. *)
Lemma C1_construir_y_valor_total_witness :
  let w' := mkWorld [ej_pen] [] [] in
  Producto_new (VStr (lit " Pen ")) (VFloat f_1_5) (VInt 100) Inventario_init
    = Some (Ok (VProducto 0), w')
  /\ call_calcular_valor_total 0 w' = Some (Ok (VFloat f_150), w').
Proof.
  apply (C1_construir_y_valor_total (lit " Pen ") (VFloat f_1_5) (VInt 100)
           f_1_5 (PInt 100) Inventario_init).
  - vm_compute. discriminate.
  - reflexivity.
  - reflexivity.
  - reflexivity.
  - vm_compute. discriminate.
Defined.

(** The statement of C1 fails on integers beyond the range of doubles and
    on integers that are not doubles: [Producto("a", 10**400, 1)] raises
    [OverflowError]; [Producto("a", 1.0, 10**400)] is built but its
    [calcular_valor_total] raises [OverflowError]; and the total value of
    [Producto("a", 2**53 + 1, 1)] is the float 2.0**53, which is not equal
    to the integer [(2**53 + 1) * 1]. *)
Lemma C1_counterexample :
  (strip (lit "a") <> []
   /\ py_ge0 (VInt (10 ^ 400)) = true
   /\ py_ge0 (VInt 1) = true
   /\ Producto_init (VStr (lit "a")) (VInt (10 ^ 400)) (VInt 1)
      = Raise (OverflowError "int too large to convert to float"))
  /\ (py_ge0 (VFloat fone) = true
      /\ py_ge0 (VInt (10 ^ 400)) = true
      /\ Producto_init (VStr (lit "a")) (VFloat fone) (VInt (10 ^ 400))
         = Ok (mkProducto (lit "a") fone (PInt (10 ^ 400)))
      /\ calcular_valor_total (mkProducto (lit "a") fone (PInt (10 ^ 400)))
         = Raise (OverflowError "int too large to convert to float"))
  /\ (py_ge0 (VInt (2 ^ 53 + 1)) = true
      /\ Producto_init (VStr (lit "a")) (VInt (2 ^ 53 + 1)) (VInt 1)
         = Ok (mkProducto (lit "a") (S754_finite false 4503599627370496 1) (PInt 1))
      /\ calcular_valor_total
           (mkProducto (lit "a") (S754_finite false 4503599627370496 1) (PInt 1))
         = Ok (S754_finite false 4503599627370496 1)
      /\ float_eq_int (S754_finite false 4503599627370496 1) ((2 ^ 53 + 1) * 1)
         = false
      /\ float_eq_int (S754_finite false 4503599627370496 1) (2 ^ 53) = true).
Proof.
  repeat split; try (vm_compute; reflexivity).
  vm_compute. discriminate.
Qed.

(** C2 on the sample store: adding the product named "pen" to the
    inventory that holds "Pen" raises the error of the duplicate and
    changes nothing. *)
Lemma C2_agregar_producto_witness :
  contents ej_mundo [ej_pen]
  /\ agregar_producto ascii_lower (VProducto 1) ej_mundo
     = Some (Raise (ValueError Msg.ya_existe), ej_mundo).
Proof.
  split; [exact ej_contents |].
  apply (proj1 (proj2 (C2_agregar_producto ascii_lower ej_mundo [ej_pen]
                         (VProducto 1) ej_contents)
                  1%nat ej_pen2 eq_refl eq_refl)).
  exists ej_pen. split.
  - apply list_elem_of_singleton. reflexivity.
  - reflexivity.
Defined.

(** C3 on the sample store: the query " PEN " finds a product and changes
    nothing. *)
Lemma C3_buscar_producto_witness :
  contents ej_mundo [ej_pen]
  /\ strip (lit " PEN ") <> []
  /\ exists res,
       buscar_producto ascii_lower (VStr (lit " PEN ")) ej_mundo
         = Some (Ok res, ej_mundo).
Proof.
  assert (Hs : strip (lit " PEN ") <> []) by (vm_compute; discriminate).
  split; [exact ej_contents | split; [exact Hs |]].
  destruct (proj2 (C3_buscar_producto ascii_lower ej_mundo [ej_pen]
                     (lit " PEN ") ej_contents) Hs) as (res & Hres & _).
  exists res. exact Hres.
Defined.

(** C4 at the price -1.5 and the quantity -3. *)
Lemma C4_valores_negativos_witness :
  py_lt0 (VFloat (SFopp f_1_5)) = true
  /\ Producto_init (VStr (lit "a")) (VFloat (SFopp f_1_5)) (VInt 1)
     = Raise (ValueError Msg.precio_negativo)
  /\ Producto_init (VStr (lit "a")) (VFloat f_2) (VInt (-3))
     = Raise (ValueError Msg.cantidad_negativa)
  /\ call_actualizar_precio 0 (VFloat (SFopp f_1_5)) ej_mundo
     = Some (Raise (ValueError Msg.precio_negativo), ej_mundo)
  /\ call_actualizar_cantidad 0 (VInt (-3)) ej_mundo
     = Some (Raise (ValueError Msg.cantidad_negativa), ej_mundo).
Proof.
  assert (H : int_value (PInt (-3)) < 0) by reflexivity.
  pose proof (C4_valores_negativos (VFloat (SFopp f_1_5)) (VInt (-3))
                (SFopp f_1_5) (PInt (-3)) eq_refl eq_refl eq_refl H)
    as (Hp & Hc & Hm).
  split; [reflexivity | split; [| split]].
  - apply Hp. reflexivity.
  - apply (Hc (VStr (lit "a")) (VFloat f_2) f_2); reflexivity.
  - apply (Hm ej_mundo 0%nat ej_pen). reflexivity.
Defined.

(** The statement of C4 fails on negative integers beyond the range of
    doubles: the constructor and [actualizar_precio] raise
    [OverflowError] on [-10**400], not [ValueError]. *)
Lemma C4_counterexample :
  py_lt0 (VInt (- 10 ^ 400)) = true
  /\ Producto_init (VStr (lit "a")) (VInt (- 10 ^ 400)) (VInt 1)
     = Raise (OverflowError "int too large to convert to float")
  /\ actualizar_precio ej_pen (VInt (- 10 ^ 400))
     = Raise (OverflowError "int too large to convert to float").
Proof. repeat split; vm_compute; reflexivity. Qed.

(** C5 at the price "x" and the quantity 2.0. *)
Lemma C5_tipos_incorrectos_witness :
  isinstance_int_float (VStr (lit "x")) = false
  /\ isinstance_int (VFloat f_2) = false
  /\ Producto_init (VStr (lit "a")) (VStr (lit "x")) (VInt 1)
     = Raise (TypeError Msg.precio_no_numerico)
  /\ Producto_init (VStr (lit "a")) (VFloat f_1_5) (VFloat f_2)
     = Raise (TypeError Msg.cantidad_no_entera)
  /\ call_actualizar_precio 0 (VStr (lit "x")) ej_mundo
     = Some (Raise (TypeError Msg.precio_no_numerico), ej_mundo)
  /\ call_actualizar_cantidad 0 (VFloat f_2) ej_mundo
     = Some (Raise (TypeError Msg.cantidad_no_entera), ej_mundo).
Proof.
  pose proof (C5_tipos_incorrectos (VStr (lit "x")) (VFloat f_2)
                eq_refl eq_refl) as (Hp & Hc & Hm).
  split; [reflexivity | split; [reflexivity | split; [| split]]].
  - apply Hp. reflexivity.
  - apply (Hc (VStr (lit "a")) (VFloat f_1_5) f_1_5); reflexivity.
  - apply (Hm ej_mundo 0%nat ej_pen). reflexivity.
Defined.

(** C6 fails on the code. [Producto("a", float("nan"), 1)] is built,
    because the test [precio_float < 0] is false on a NaN, and
    [agregar_producto] stores it: the inventory then holds a product
    whose price is not [>= 0]. *)
Theorem C6_precio_nan :
  valid_float fnan = true
  /\ run ascii_lower left_sum
       [OpNew (VStr (lit "a")) (VFloat fnan) (VInt 1); OpAdd (VProducto 0)]
       Inventario_init
     = Some (mkWorld [mkProducto (lit "a") fnan (PInt 1)] [0%nat] [])
  /\ py_ge0 (VFloat (precio (mkProducto (lit "a") fnan (PInt 1)))) = false.
Proof. repeat split; vm_compute; reflexivity. Qed.

(** C7 on the sample store: the total is 150.0. *)
Lemma C7_calcular_valor_inventario_witness :
  contents ej_mundo [ej_pen]
  /\ calcular_valor_inventario left_sum ej_mundo
     = Some (Ok (VFloat f_150), ej_mundo).
Proof.
  split; [exact ej_contents |].
  exact (proj1 (C7_calcular_valor_inventario ascii_lower left_sum
                  ej_mundo [ej_pen] ej_contents)).
Defined.

(** The statement of C7 fails when a price changes between two calls:
    with no [agregar_producto] in between, the total goes from 150.0 to
    200.0 after [actualizar_precio(2.0)] on the product of the inventory.
    It also fails on a quantity beyond the range of doubles: the call
    raises [OverflowError]. *)
Lemma C7_counterexample :
  (fst <$> calcular_valor_inventario left_sum ej_mundo
     = Some (Ok (VFloat f_150))
   /\ run ascii_lower left_sum [OpSetPrice 0 (VFloat f_2)] ej_mundo
      = Some (mkWorld [mkProducto (lit "Pen") f_2 (PInt 100); ej_pen2] [0%nat] [])
   /\ fst <$> calcular_valor_inventario left_sum
        (mkWorld [mkProducto (lit "Pen") f_2 (PInt 100); ej_pen2] [0%nat] [])
      = Some (Ok (VFloat (S754_finite false 7036874417766400 (-45)))))
  /\ (run ascii_lower left_sum
        [OpNew (VStr (lit "a")) (VFloat fone) (VInt (10 ^ 400));
         OpAdd (VProducto 0)]
        Inventario_init
      = Some (mkWorld [mkProducto (lit "a") fone (PInt (10 ^ 400))] [0%nat] [])
      /\ fst <$> calcular_valor_inventario left_sum
           (mkWorld [mkProducto (lit "a") fone (PInt (10 ^ 400))] [0%nat] [])
         = Some (Raise (OverflowError "int too large to convert to float"))).
Proof. repeat split; vm_compute; reflexivity. Qed.



(** C9 at [True]. *)
Lemma C9_booleanos_witness :
  Producto_init (VStr (lit "a")) (VBool true) (VInt 2)
    = Ok (mkProducto (lit "a") fone (PInt 2))
  /\ Producto_init (VStr (lit "a")) (VFloat f_2) (VBool true)
    = Ok (mkProducto (lit "a") f_2 (PBool true)).
Proof.
  pose proof (C9_booleanos true) as (Hp & Hc & _).
  split.
  - apply (Hp (VStr (lit "a")) (VInt 2) (PInt 2)).
    + reflexivity.
    + reflexivity.
    + vm_compute. discriminate.
  - apply (Hc (VStr (lit "a")) (VFloat f_2) f_2); reflexivity.
Defined.

(** C10 at the name 3. *)
Lemma C10_nombre_no_str_witness :
  (forall s, VInt 3 <> VStr s)
  /\ Producto_init (VInt 3) (VFloat f_2) (VInt 1)
     = Raise (ValueError Msg.nombre_vacio).
Proof.
  assert (H : forall s, VInt 3 <> VStr s) by (intros s; discriminate).
  split; [exact H |].
  exact (C10_nombre_no_str (VInt 3) (VFloat f_2) (VInt 1) H).
Defined.

Lemma Producto_init_reconstruye_witness :
  Producto_init (VStr (lit " Pen ")) (VFloat f_1_5) (VInt 100) = Ok ej_pen
  /\ Producto_init (VStr (nombre ej_pen)) (VFloat (precio ej_pen))
       (pyint_value (cantidad ej_pen)) = Ok ej_pen.
Proof.
  assert (H : Producto_init (VStr (lit " Pen ")) (VFloat f_1_5) (VInt 100)
              = Ok ej_pen) by (vm_compute; reflexivity).
  split; [exact H |].
  exact (Producto_init_reconstruye _ _ _ _ H).
Defined.

Lemma actualizar_y_valor_total_witness :
  call_actualizar_precio 0 (VInt 2) ej_mundo
    = Some (Ok VNone,
            mkWorld [mkProducto (lit "Pen") f_2 (PInt 100); ej_pen2] [0%nat] [])
  /\ call_calcular_valor_total 0
       (mkWorld [mkProducto (lit "Pen") f_2 (PInt 5); ej_pen2] [0%nat] [])
     = Some (Ok (VFloat (S754_finite false 5629499534213120 (-49))),
             mkWorld [mkProducto (lit "Pen") f_2 (PInt 5); ej_pen2] [0%nat] []).
Proof.
  assert (H0 : 0 <= int_value (PInt 5)) by (vm_compute; discriminate).
  pose proof (actualizar_y_valor_total ej_mundo 0%nat ej_pen (VInt 2) (VInt 5)
                f_2 (PInt 5) eq_refl eq_refl eq_refl eq_refl H0)
    as (H1 & _ & H3 & _).
  split; [exact H1 | exact H3].
Defined.

(** Adding "Lapiz" to the inventory that holds "Pen", then searching for
    " LAPIZ ". *)
Lemma agregar_y_buscar_witness :
  let w' := mkWorld [ej_pen; ej_lapiz] [0%nat; 1%nat] [] in
  agregar_producto ascii_lower (VProducto 1) ej_mundo2 = Some (Ok VNone, w')
  /\ buscar_producto ascii_lower (VStr (lit " LAPIZ ")) w'
     = Some (Ok (VProducto 1), w').
Proof.
  apply (agregar_y_buscar ascii_lower ej_mundo2 [ej_pen] 1%nat ej_lapiz
           (lit " LAPIZ ")).
  - repeat constructor.
  - reflexivity.
  - intros q Hq. apply list_elem_of_singleton in Hq. subst q.
    vm_compute. discriminate.
  - vm_compute. discriminate.
  - vm_compute. reflexivity.
Defined.

(** Adding "Lapiz" a second time. *)
Lemma agregar_dos_veces_witness :
  let w' := mkWorld [ej_pen; ej_lapiz] [0%nat; 1%nat] [] in
  agregar_producto ascii_lower (VProducto 1) ej_mundo2 = Some (Ok VNone, w')
  /\ agregar_producto ascii_lower (VProducto 1) w'
     = Some (Raise (ValueError Msg.ya_existe), w').
Proof.
  intros w'.
  assert (Hc : contents ej_mundo2 [ej_pen]) by repeat constructor.
  assert (Hadd : agregar_producto ascii_lower (VProducto 1) ej_mundo2
                 = Some (Ok VNone, w')) by (vm_compute; reflexivity).
  split; [exact Hadd |].
  exact (proj2 (agregar_dos_veces ascii_lower ej_mundo2 w' [ej_pen] 1%nat
                  ej_lapiz Hc eq_refl Hadd)
           1%nat ej_lapiz eq_refl eq_refl).
Defined.

(** A new price for the product of the sample inventory: the total goes
    to 200.0. *)
Lemma actualizar_en_inventario_witness :
  let p' := mkProducto (lit "Pen") f_2 (PInt 100) in
  let w' := mkWorld [p'; ej_pen2] [0%nat] [] in
  call_actualizar_precio 0 (VFloat f_2) ej_mundo = Some (Ok VNone, w')
  /\ contents w' [p']
  /\ calcular_valor_inventario left_sum w'
     = Some (Ok (VFloat (S754_finite false 7036874417766400 (-45))), w').
Proof.
  assert (Hnd : NoDup (productos ej_mundo)).
  { constructor; [| constructor]. intros H. inversion H. }
  exact (proj1 (actualizar_en_inventario left_sum ej_mundo
                  [ej_pen] 0%nat 0%nat ej_pen (VFloat f_2)
                  ej_contents Hnd eq_refl eq_refl)
           (mkProducto (lit "Pen") f_2 (PInt 100)) eq_refl).
Defined.

(** The sample store is reached from the empty inventory. *)
Lemma nombre_unico_alcanzable_witness :
  run ascii_lower left_sum ej_programa Inventario_init = Some ej_mundo
  /\ NoDup (productos ej_mundo)
  /\ forall i j p q,
       [ej_pen] !! i = Some p -> [ej_pen] !! j = Some q ->
       ascii_lower (nombre p) = ascii_lower (nombre q) -> i = j.
Proof.
  assert (Hrun : run ascii_lower left_sum ej_programa Inventario_init
                 = Some ej_mundo) by (vm_compute; reflexivity).
  split; [exact Hrun |].
  exact (nombre_unico_alcanzable ascii_lower left_sum ej_programa ej_mundo
           [ej_pen] Hrun ej_contents).
Defined.


(** From the empty inventory to the sample store. *)
Lemma run_crece_witness :
  run ascii_lower left_sum ej_programa Inventario_init = Some ej_mundo
  /\ productos Inventario_init `prefix_of` productos ej_mundo
  /\ (length (heap Inventario_init) <= length (heap ej_mundo))%nat.
Proof.
  assert (Hrun : run ascii_lower left_sum ej_programa Inventario_init
                 = Some ej_mundo) by (vm_compute; reflexivity).
  destruct (run_crece ascii_lower left_sum ej_programa _ _ Hrun)
    as (H1 & _ & H3 & _).
  split; [exact Hrun | split; [exact H1 | exact H3]].
Defined.


(** The queries " PEN " and "pen" on the sample store. *)
Lemma buscar_producto_insensible_witness :
  buscar_producto ascii_lower (VStr (lit " PEN ")) ej_mundo
  = buscar_producto ascii_lower (VStr (lit "pen")) ej_mundo.
Proof.
  apply buscar_producto_insensible.
  - vm_compute. discriminate.
  - vm_compute. discriminate.
  - vm_compute. reflexivity.
Defined.




(** The menu on the sample session, from the empty inventory. *)
Lemma menu_principal_termina_witness :
  exists res entrada' w',
    menu_principal ascii_lower left_sum float_de_digitos int_de_digitos
      ej_sesion Inventario_init
      = Some (res, entrada', w')
    /\ invariante ascii_lower w'
    /\ crece Inventario_init w'
    /\ entrada' `suffix_of` ej_sesion.
Proof.
  apply menu_principal_termina.
  unfold invariante, Inventario_init, nombres. cbn.
  repeat split; constructor.
Defined.


(** The first option on the lines " Pen ", "2" and "100". *)
Lemma opcion_1_agrega_witness :
  opcion_1 ascii_lower float_de_digitos int_de_digitos
    [lit " Pen "; lit "2"; lit "100"; lit "4"; lit "5"] Inventario_init
  = Some (Valor tt, [lit "4"; lit "5"],
          mkWorld [mkProducto (lit "Pen") f_2 (PInt 100)] [0%nat]
            [lit "Ingrese el nombre del producto: ";
             lit "Ingrese el precio del producto: ";
             lit "Ingrese la cantidad del producto: ";
             lit "Producto 'Pen' agregado al inventario." ++ [10%N; 10%N]]).
Proof.
  apply (opcion_1_agrega ascii_lower float_de_digitos int_de_digitos
           Inventario_init [] (lit " Pen ") (lit "2") (lit "100")
           [lit "4"; lit "5"] f_2 100).
  - constructor.
  - vm_compute. discriminate.
  - vm_compute. reflexivity.
  - reflexivity.
  - vm_compute. reflexivity.
  - lia.
  - intros q Hq. inversion Hq.
Defined.

(** The total of the sample store, whose quantity is 100. *)
Lemma calcular_valor_inventario_sin_desborde_witness :
  exists xs,
    valores_de [ej_pen] = Ok xs
    /\ length xs = length [ej_pen]
    /\ calcular_valor_inventario left_sum ej_mundo
       = Some (Ok (py_sum left_sum xs), ej_mundo).
Proof.
  assert (Hq : Forall (fun p => Z.abs (int_value (cantidad p)) < 2 ^ 1023)
                 [ej_pen]).
  { constructor; [| constructor]. vm_compute. reflexivity. }
  exact (proj2 (calcular_valor_inventario_sin_desborde left_sum ej_mundo
                  [ej_pen] ej_contents Hq)).
Defined.

(** The integer price 2. *)
Lemma precio_entero_sin_desborde_witness :
  exists x,
    to_float (VInt 2) = Ok x
    /\ Producto_init (VStr (lit "a")) (VInt 2) (VInt 1)
       = Ok (mkProducto (lit "a") x (PInt 1))
    /\ actualizar_precio ej_pen (VInt 2)
       = Ok (mkProducto (lit "Pen") x (PInt 100)).
Proof.
  assert (Hn : Z.abs 2 < 2 ^ 1023) by (vm_compute; reflexivity).
  destruct (precio_entero_sin_desborde 2 Hn) as (x & Hx & Hinit & Hact).
  exists x. split; [exact Hx | split].
  - apply (Hinit (VStr (lit "a")) (VInt 1) (PInt 1)).
    + reflexivity.
    + reflexivity.
    + vm_compute. discriminate.
  - apply (Hact ej_pen).
Defined.
